(** * IMD1, example 01-hello-world

    The repository's source is the C driver
    [examples/01-hello-world/main.c]: it reads [input.md], calls the
    conversion entry point [C_IMD1_MDToHTML] of the IMD1 library, writes the
    returned HTML to [output.html] and frees the two returned values.

    The first part of this file is a model of the C library calls the driver
    makes (streams over a store of regular files, a heap of blocks,
    [fprintf] with its format string) as state passing over a [world], and
    the driver transcribed statement by statement.  The second part models,
    from the specification, those parts of the library for which it gives
    rules.  Definitions come first, properties after them. *)

From Stdlib Require Import ZArith Lia List Bool.
From Stdlib Require Import Strings.String Strings.Byte DecimalString.
From stdpp Require Import base option list gmap strings.

Open Scope Z_scope.

(** ** Bytes and C strings *)

#[global] Instance byte_eq_dec : EqDecision byte := Byte.byte_eq_dec.

(** The bytes of a string literal of the C source. *)
Definition bytes (s : string) : list byte := String.list_byte_of_string s.

(** ['\0'] and ['%']. *)
Definition NUL : byte := x00.
Definition PERCENT : byte := x25.

(** The C string held by an array of [char]: what precedes the first ['\0']. *)
Fixpoint c_str (bs : list byte) : list byte :=
  match bs with
  | [] => []
  | c :: rest => if decide (c = NUL) then [] else c :: c_str rest
  end.

(** ** Integer types of the driver (LP64) *)

Definition LONG_MAX : Z := 2 ^ 63 - 1.
Definition LONG_MIN : Z := - 2 ^ 63.
Definition SIZE_MAX : Z := 2 ^ 64 - 1.
Definition PTRDIFF_MAX : Z := 2 ^ 63 - 1.

(** Conversion of a [long] to [size_t]: reduction modulo [SIZE_MAX + 1]. *)
Definition to_size_t (z : Z) : Z := z mod (SIZE_MAX + 1).

(** [sizeof(char)]. *)
Definition sizeof_char : Z := 1.

(** ** The world the driver runs in *)

(** A regular file: its bytes, and whether this process may read and write it. *)
Record file := mkFile {
  f_data : list byte;
  f_readable : bool;
  f_writable : bool
}.

(** An entry of the table of streams ([FILE] objects). *)
Record stream := mkStream {
  st_name : string;
  st_pos : nat;
  st_open : bool
}.

(** A [FILE *]: [stderr], or an entry of the table of streams.  A null
    [FILE *] is [None]. *)
Inductive FILE : Type :=
| stderr
| Stream (i : nat).

(** A heap block as [malloc] hands it out: a cell is [None] while its value
    is indeterminate. *)
Record block := mkBlock {
  blk_cells : list (option byte);
  blk_live : bool
}.

(** A pointer into the heap: block and byte offset. *)
Inductive ptr : Type :=
| NULL
| Ptr (b : nat) (ofs : Z).

#[global] Instance ptr_eq_dec : EqDecision ptr.
Proof. solve_decision. Defined.

(** What the run records: each call of the conversion entry point, with its
    argument and the heap at the moment of the call, and each call of [free]
    on a non-null pointer. *)
Inductive event : Type :=
| EvConvert (arg : ptr) (mem : list block)
| EvFree (p : ptr).

Record world := mkWorld {
  w_files : gmap string file;     (* the working directory *)
  w_dir_writable : bool;          (* may a new file be created in it *)
  w_streams : list stream;
  w_heap : list block;
  w_malloc_limit : Z;             (* the largest request malloc satisfies *)
  w_stderr : list byte;
  w_trace : list event
}.

Definition set_files (fs : gmap string file) (w : world) : world :=
  mkWorld fs (w_dir_writable w) (w_streams w) (w_heap w) (w_malloc_limit w)
          (w_stderr w) (w_trace w).
Definition set_streams (ss : list stream) (w : world) : world :=
  mkWorld (w_files w) (w_dir_writable w) ss (w_heap w) (w_malloc_limit w)
          (w_stderr w) (w_trace w).
Definition set_heap (h : list block) (w : world) : world :=
  mkWorld (w_files w) (w_dir_writable w) (w_streams w) h (w_malloc_limit w)
          (w_stderr w) (w_trace w).
Definition set_stderr (e : list byte) (w : world) : world :=
  mkWorld (w_files w) (w_dir_writable w) (w_streams w) (w_heap w)
          (w_malloc_limit w) e (w_trace w).
Definition log_event (e : event) (w : world) : world :=
  mkWorld (w_files w) (w_dir_writable w) (w_streams w) (w_heap w)
          (w_malloc_limit w) (w_stderr w) (w_trace w ++ [e]).

(** ** Statements

    A statement either completes and execution goes on ([Next]), or executes
    [return] in [main] ([Returned]), or has undefined behaviour
    ([Undefined], with the world as it was when that was reached). *)

Inductive outcome (A : Type) : Type :=
| Next (a : A) (w : world)
| Returned (status : Z) (w : world)
| Undefined (w : world).
Arguments Next {A} a w.
Arguments Returned {A} status w.
Arguments Undefined {A} w.

Definition stmt (A : Type) : Type := world -> outcome A.

Definition ret {A} (a : A) : stmt A := fun w => Next a w.

Definition bind {A B} (c : stmt A) (k : A -> stmt B) : stmt B :=
  fun w => match c w with
           | Next a w' => k a w'
           | Returned s w' => Returned s w'
           | Undefined w' => Undefined w'
           end.

(** [return status;] *)
Definition return_ {A} (status : Z) : stmt A := fun w => Returned status w.

Definition undefined {A} : stmt A := fun w => Undefined w.

Declare Scope stmt_scope.
Delimit Scope stmt_scope with stmt.
Notation "x <- c ;; k" := (bind c (fun x => k))
  (at level 100, c at next level, right associativity) : stmt_scope.
Notation "c ;;; k" := (bind c (fun _ => k))
  (at level 100, right associativity) : stmt_scope.
Open Scope stmt_scope.

(** The world an outcome ends in. *)
Definition final_world {A} (o : outcome A) : world :=
  match o with
  | Next _ w | Returned _ w | Undefined w => w
  end.

(** ** The C library, as far as the driver uses it

    Streams are streams over regular files as on POSIX, where text and binary
    streams do not differ and the file position is a byte count.  Read and
    write errors on an open stream are not modelled: a read delivers the
    bytes the file has, a write stores them. *)

(** A fresh entry in the table of streams, positioned at the start. *)
Definition open_stream (name : string) : stmt (option FILE) :=
  fun w =>
    Next (Some (Stream (length (w_streams w))))
         (set_streams (w_streams w ++ [mkStream name 0 true]) w).

(** May this process open the existing file [name] of the directory [fs]
    for reading and writing; may it create [name] there. *)
Definition can_open_existing (fs : gmap string file) (name : string) : bool :=
  match fs !! name with
  | Some f => f_readable f && f_writable f
  | None => false
  end.

Definition can_create (fs : gmap string file) (dir_writable : bool)
    (name : string) : bool :=
  match fs !! name with
  | Some _ => false
  | None => dir_writable
  end.

(** The bytes of the file [name], none when there is no such file. *)
Definition file_bytes (fs : gmap string file) (name : string) : list byte :=
  match fs !! name with
  | Some f => f_data f
  | None => []
  end.

(** [fopen(name, mode)] for the two modes of the driver.  ["r+"] opens an
    existing file for reading and writing; ["w+"] truncates it to length
    zero, or creates it.  A null result is [None]. *)
Definition fopen (name mode : string) : stmt (option FILE) :=
  fun w =>
    if String.eqb mode "r+" then
      if can_open_existing (w_files w) name then open_stream name w
      else Next None w
    else if String.eqb mode "w+" then
      if can_open_existing (w_files w) name
         || can_create (w_files w) (w_dir_writable w) name
      then open_stream name
             (set_files (<[name := mkFile [] true true]> (w_files w)) w)
      else Next None w
    else Next None w.

(** The open stream behind a [FILE *].  Using a closed or null stream is
    undefined; [stderr] is no entry of the table (the driver hands it to
    [fprintf] only, which treats it apart). *)
Definition get_stream (f : option FILE) (w : world) : option (nat * stream) :=
  match f with
  | Some (Stream i) =>
      match w_streams w !! i with
      | Some s => if st_open s then Some (i, s) else None
      | None => None
      end
  | _ => None
  end.

Inductive whence : Type := SEEK_SET | SEEK_CUR | SEEK_END.

(** [fseek(f, offset, whence)]: 0, or -1 when the new position would be
    negative. *)
Definition fseek (f : option FILE) (offset : Z) (wh : whence) : stmt Z :=
  fun w =>
    match get_stream f w with
    | Some (i, s) =>
        let base :=
          match wh with
          | SEEK_SET => 0
          | SEEK_CUR => Z.of_nat (st_pos s)
          | SEEK_END => Z.of_nat (length (file_bytes (w_files w) (st_name s)))
          end in
        if base + offset <? 0 then Next (-1) w
        else Next 0 (set_streams
                       (<[i := mkStream (st_name s) (Z.to_nat (base + offset)) true]>
                          (w_streams w)) w)
    | None => Undefined w
    end.

(** [ftell(f)]: the position, or -1 when a [long] cannot hold it. *)
Definition ftell (f : option FILE) : stmt Z :=
  fun w =>
    match get_stream f w with
    | Some (_, s) =>
        if Z.of_nat (st_pos s) <=? LONG_MAX then Next (Z.of_nat (st_pos s)) w
        else Next (-1) w
    | None => Undefined w
    end.

(** [fclose(f)]. *)
Definition fclose (f : option FILE) : stmt Z :=
  fun w =>
    match get_stream f w with
    | Some (i, s) =>
        Next 0 (set_streams
                  (<[i := mkStream (st_name s) (st_pos s) false]> (w_streams w)) w)
    | None => Undefined w
    end.

(** [malloc(n)], [n] a [size_t]: a new block of [n] indeterminate bytes, or a
    null pointer when the request exceeds what the allocator can give. *)
Definition can_malloc (limit n : Z) : bool :=
  (n <=? limit) && (n <=? PTRDIFF_MAX).

Definition malloc (n : Z) : stmt ptr :=
  fun w =>
    if can_malloc (w_malloc_limit w) n
    then Next (Ptr (length (w_heap w)) 0)
              (set_heap (w_heap w ++ [mkBlock (replicate (Z.to_nat n) None) true]) w)
    else Next NULL w.

(** Storing [bs] at [p]: defined when [p] points into a live block that has
    room for them. *)
Definition store_bytes (p : ptr) (bs : list byte) (w : world) : option world :=
  match p with
  | Ptr b ofs =>
      match w_heap w !! b with
      | Some blk =>
          if blk_live blk && (0 <=? ofs)
             && (ofs + Z.of_nat (length bs) <=? Z.of_nat (length (blk_cells blk)))
          then
            let o := Z.to_nat ofs in
            let cells := take o (blk_cells blk) ++ (Some <$> bs)
                         ++ drop (o + length bs) (blk_cells blk) in
            Some (set_heap (<[b := mkBlock cells true]> (w_heap w)) w)
          else None
      | None => None
      end
  | NULL => None
  end.

(** [p[i] = c;] *)
Definition store_char (p : ptr) (i : Z) (c : byte) : stmt unit :=
  fun w =>
    match p with
    | Ptr b ofs =>
        match store_bytes (Ptr b (ofs + i)) [c] w with
        | Some w' => Next tt w'
        | None => Undefined w
        end
    | NULL => Undefined w
    end.

(** [fread(p, size, nmemb, f)], [size] and [nmemb] of type [size_t]: reads as
    many whole elements as the file still has, at most [nmemb], stores them
    at [p] and returns their number. *)
Definition fread (p : ptr) (size nmemb : Z) (f : option FILE) : stmt Z :=
  fun w =>
    match get_stream f w with
    | Some (i, s) =>
        let rest := drop (st_pos s) (file_bytes (w_files w) (st_name s)) in
        let items :=
          if size =? 0 then 0
          else Z.min nmemb (Z.of_nat (length rest) / size) in
        let got := take (Z.to_nat (items * size)) rest in
        match store_bytes p got w with
        | Some w' =>
            Next items
                 (set_streams
                    (<[i := mkStream (st_name s) (st_pos s + length got) true]>
                       (w_streams w')) w')
        | None => Undefined w
        end
    | None => Undefined w
    end.

(** The string at [p]: the bytes from [p] up to the first ['\0'].  Reading an
    indeterminate byte or past the end of the block is undefined ([None]). *)
Fixpoint cells_c_str (cells : list (option byte)) : option (list byte) :=
  match cells with
  | [] => None
  | None :: _ => None
  | Some c :: rest =>
      if decide (c = NUL) then Some []
      else option_map (cons c) (cells_c_str rest)
  end.

Definition load_c_str (p : ptr) (w : world) : option (list byte) :=
  match p with
  | Ptr b ofs =>
      match w_heap w !! b with
      | Some blk =>
          if blk_live blk && (0 <=? ofs)
             && (ofs <=? Z.of_nat (length (blk_cells blk)))
          then cells_c_str (drop (Z.to_nat ofs) (blk_cells blk))
          else None
      | None => None
      end
  | NULL => None
  end.

(** [free(p)]: nothing for a null pointer; releases the block [p] is the
    start of; anything else (a pointer into a block, a block released
    before) is undefined. *)
Definition free (p : ptr) : stmt unit :=
  fun w =>
    match p with
    | NULL => Next tt w
    | Ptr b ofs =>
        match w_heap w !! b with
        | Some blk =>
            if blk_live blk && (ofs =? 0)
            then Next tt
                   (log_event (EvFree p)
                      (set_heap (<[b := mkBlock (blk_cells blk) false]> (w_heap w)) w))
            else Undefined w
        | None => Undefined w
        end
    end.

(** *** [fprintf] with a format and no further argument

    The driver calls [fprintf] with a format only.  Ordinary characters are
    copied; ["%%"] writes one ['%']; every other conversion specification
    converts an argument that the call does not supply, or is no conversion
    specification at all, and the behaviour is undefined ([None]). *)
Fixpoint format_noargs (fmt : list byte) : option (list byte) :=
  match fmt with
  | [] => Some []
  | c :: rest =>
      if decide (c = PERCENT) then
        match rest with
        | c' :: rest' =>
            if decide (c' = PERCENT)
            then option_map (cons PERCENT) (format_noargs rest')
            else None
        | [] => None
        end
      else option_map (cons c) (format_noargs rest)
  end.

(** A [const char *] argument: a string literal of the source, or a pointer
    into the heap. *)
Inductive char_ptr : Type :=
| Lit (s : string)
| At (p : ptr).

Definition string_at (a : char_ptr) (w : world) : option (list byte) :=
  match a with
  | Lit s => Some (c_str (bytes s))
  | At p => load_c_str p w
  end.

(** Writing [out] at the position of stream [i]; a position past the end of
    the file leaves a gap of zero bytes. *)
Definition write_stream (i : nat) (s : stream) (out : list byte) (w : world) : world :=
  let w' :=
    match w_files w !! st_name s with
    | Some f =>
        let data := f_data f ++ replicate (st_pos s - length (f_data f)) NUL in
        let data' := take (st_pos s) data ++ out
                     ++ drop (st_pos s + length out) data in
        set_files (<[st_name s := mkFile data' (f_readable f) (f_writable f)]>
                     (w_files w)) w
    | None => w
    end in
  set_streams (<[i := mkStream (st_name s) (st_pos s + length out) true]>
                 (w_streams w')) w'.

(** [fprintf(f, format)]: returns the number of bytes written. *)
Definition fprintf (f : option FILE) (format : char_ptr) : stmt Z :=
  fun w =>
    match string_at format w with
    | Some fmt =>
        match format_noargs fmt with
        | Some out =>
            match f with
            | Some stderr =>
                Next (Z.of_nat (length out)) (set_stderr (w_stderr w ++ out) w)
            | _ =>
                match get_stream f w with
                | Some (i, s) =>
                    Next (Z.of_nat (length out)) (write_stream i s out w)
                | None => Undefined w
                end
            end
        | None => Undefined w
        end
    | None => Undefined w
    end.

(** Arithmetic of the driver: [a + b] on [long] (overflow is undefined) and
    [a * b] on [size_t] (wraps around). *)
Definition long_add (a b : Z) : stmt Z :=
  fun w =>
    if (LONG_MIN <=? a + b) && (a + b <=? LONG_MAX) then Next (a + b) w
    else Undefined w.

Definition size_t_mul (a b : Z) : Z := (a * b) mod (SIZE_MAX + 1).

(** ** The conversion entry point, as the driver sees it *)

(** [struct C_IMD1_MDToHTML_return]: the driver uses [r0] as a string and
    passes both members to [free]. *)
Record C_IMD1_MDToHTML_return := mkReturn {
  r0 : ptr;
  r1 : ptr
}.

Definition is_null {A} (p : option A) : bool :=
  match p with
  | None => true
  | Some _ => false
  end.

Definition ptr_is_null (p : ptr) : bool :=
  match p with
  | NULL => true
  | Ptr _ _ => false
  end.

Section Driver.

(** What the library computes: from the text of the argument, the HTML and
    the second value, both as text.  The driver is verified for every such
    function. *)
Variable convert : list byte -> list byte * list byte.

(** A new block holding [s] and its terminating ['\0']. *)
Definition alloc_c_str (s : list byte) : stmt ptr :=
  fun w =>
    Next (Ptr (length (w_heap w)) 0)
         (set_heap (w_heap w ++ [mkBlock (Some <$> (s ++ [NUL])) true]) w).

(** Modelled from the spec: [libimd1.h] and the library behind it are not in
    the repository's sources.  The entry point takes the markup as a C string
    and returns two values the caller owns and releases with [free] (spec,
    sections 5 and 6): here two new blocks, the first holding the HTML as a
    C string.  It is total (section 6); its own allocations are not charged
    to [w_malloc_limit]. *)
Definition C_IMD1_MDToHTML (markdown : ptr) : stmt C_IMD1_MDToHTML_return :=
  fun w =>
    match load_c_str markdown w with
    | Some text =>
        (p0 <- alloc_c_str (fst (convert text));;
         p1 <- alloc_c_str (snd (convert text));;
         ret (mkReturn p0 p1))
          (log_event (EvConvert markdown (w_heap w)) w)
    | None => Undefined w
    end.

(** ** [main] *)

Definition main : stmt unit :=
  (* Read the contents of input.md *)
  fin <- fopen "input.md" "r+";;
  if is_null fin then
    (fprintf (Some stderr) (Lit "Could not open input.md");;;
     return_ (-1))
  else
    (fseek fin 0 SEEK_END;;;
     size <- ftell fin;;
     fseek fin 0 SEEK_SET;;;
     size_plus_1 <- long_add size 1;;
     buffer <- malloc (size_t_mul sizeof_char (to_size_t size_plus_1));;
     if ptr_is_null buffer then
       (fprintf (Some stderr) (Lit "Could not allocate memory for buffer");;;
        return_ (-1))
     else
       (fread buffer sizeof_char (to_size_t size) fin;;;
        store_char buffer size NUL;;;
        fclose fin;;;
        (* IMPORTANT: Call IMD1 *)
        r <- C_IMD1_MDToHTML buffer;;
        (* Output the HTML file *)
        fout <- fopen "output.html" "w+";;
        if is_null fout then
          (fprintf (Some stderr) (Lit "Could not open output.html");;;
           return_ (-1))
        else
          (fprintf fout (At (r0 r));;;
           fclose fout;;;
           (* IMPORTANT: Free the values returned by IMD1 *)
           free (r0 r);;;
           free (r1 r);;;
           return_ 0))).

End Driver.

(** ** Runs of the driver

    A run of the program starts with no stream open besides the standard
    ones, an empty heap, and nothing written or recorded yet: the directory,
    whether files can be created in it, and the memory [malloc] can give are
    what a run depends on. *)
Definition initial_world (fs : gmap string file) (dir_writable : bool)
    (limit : Z) : world :=
  mkWorld fs dir_writable [] [] limit [] [].

(** A live or released block that holds the C string [s]. *)
Definition string_block (s : list byte) (live : bool) : block :=
  mkBlock (Some <$> (s ++ [NUL])) live.


(** What [output.html] holds when the run is over; nothing is known of it
    once the behaviour is undefined. *)
Definition written_output (o : outcome unit) : option (list byte) :=
  match o with
  | Next _ w | Returned _ w => Some (file_bytes (w_files w) "output.html")
  | Undefined _ => None
  end.

(** The status [main] returned, if the run came to a [return]. *)
Definition exit_status (o : outcome unit) : option Z :=
  match o with
  | Returned status _ => Some status
  | Next _ _ | Undefined _ => None
  end.

(** For examples: a directory that holds [input.md] alone, and a stand-in
    for the library that wraps the text in a paragraph and returns an empty
    second value. *)
Definition only_input (text : list byte) : gmap string file :=
  {[ "input.md"%string := mkFile text true true ]}.

Definition paragraph_only (text : list byte) : list byte * list byte :=
  (bytes "<p>" ++ text ++ bytes "</p>", []).


(** * The conversion core, from the specification

    The library behind [C_IMD1_MDToHTML] is not among the repository's
    sources.  What follows is a model of the parts of it that the
    specification fixes in words: the trees of section 3, the renderer of
    section 4.4, the reference table, and what the block parser does at the
    end of the input.  The rules by which a line changes the parser's state,
    the line scanner and the inline parser are taken as parameters. *)

Module IMD1.

#[global] Instance byte_countable : Countable byte :=
  inj_countable Byte.to_N Byte.of_N Byte.of_to_N.

(** Modelled from the spec: the mapping from normalized reference label to
    destination and optional title (section 3); the library's table is not
    in the sources. *)
Abbreviation ref_table := (gmap (list byte) (list byte * option (list byte))).

(** *** Data model (spec, section 3) *)

#[local] Set Warnings "-register-all".

(** Modelled from the spec: the inline nodes of section 3; the library's
    own type is not in the sources. *)
Inductive Inline : Type :=
| Text (literal : list byte)
| Emphasis (children : list Inline)
| Strong (children : list Inline)
| CodeSpan (literal : list byte)
| Link (destination : list byte) (title : option (list byte))
       (children : list Inline)
| Image (destination : list byte) (title : option (list byte))
        (alt : list byte)
| LineBreak (hard : bool)
| RawInlineHTML (literal : list byte)
| Escaped (c : byte).

(** Modelled from the spec: the block nodes of section 3.  [T] is what a
    leaf holds: its raw text span when the block parser has built the tree,
    its inline sequence after the inline parser has run. *)
Inductive Block (T : Type) : Type :=
| Heading (level : nat) (content : T)
| Paragraph (content : T)
| CodeBlock (info : list byte) (literal : list byte) (fenced : bool)
| BlockQuote (children : list (Block T))
| List (ordered : bool) (start : nat) (tight : bool) (items : list (Block T))
| ListItem (children : list (Block T))
| ThematicBreak
| RawHTMLBlock (literal : list byte).
Arguments Heading {T} level content.
Arguments Paragraph {T} content.
Arguments CodeBlock {T} info literal fenced.
Arguments BlockQuote {T} children.
Arguments List {T} ordered start tight items.
Arguments ListItem {T} children.
Arguments ThematicBreak {T}.
Arguments RawHTMLBlock {T} literal.

(** Modelled from the spec: the taxonomy of section 7 and the diagnostics
    entries of section 6, with the kind of anomaly as their severity. *)
Inductive anomaly : Type :=
| StructuralAnomaly
| UnresolvedReference
| EncodingAnomaly.

Record diagnostic := mkDiagnostic {
  dg_severity : anomaly;
  dg_message : string;
  dg_offset : nat
}.

(** *** Reference table (spec, sections 3 and 4.2) *)

(** Modelled from the spec: a link-reference definition
    [[label]: destination "title"] as the block parser harvests it. *)
Record definition := mkDefinition {
  def_label : list byte;
  def_destination : list byte;
  def_title : option (list byte)
}.

(** Modelled from the spec: whitespace, for the collapsing of labels: space,
    tab, line feed, carriage return. *)
Definition is_whitespace (c : byte) : bool :=
  bool_decide (c = " "%byte) || bool_decide (c = x09)
  || bool_decide (c = x0a) || bool_decide (c = x0d).

(** Modelled from the spec: case folding, here of the letters [A] to [Z];
    other bytes are kept. *)
Definition fold_case (c : byte) : byte :=
  let n := Byte.to_N c in
  if ((65 <=? n) && (n <=? 90))%N
  then default c (Byte.of_N (n + 32))
  else c.

(** Modelled from the spec: whitespace collapsing.  A run of whitespace
    between two kept bytes becomes one space, whitespace at either end is
    dropped ([started]: a byte has been kept; [pending]: whitespace was seen
    since). *)
Fixpoint collapse_whitespace (pending started : bool) (l : list byte)
    : list byte :=
  match l with
  | [] => []
  | c :: rest =>
      if is_whitespace c then collapse_whitespace started started rest
      else (if pending then [" "%byte] else [])
           ++ c :: collapse_whitespace false true rest
  end.

(** Modelled from the spec: the key of a label, case-folded and
    whitespace-collapsed. *)
Definition normalize_label (label : list byte) : list byte :=
  collapse_whitespace false false (fold_case <$> label).

(** Modelled from the spec: adding a definition to the table; a definition
    whose key is already there is ignored. *)
Definition add_definition (table : ref_table) (def : definition) : ref_table :=
  match table !! normalize_label (def_label def) with
  | Some _ => table
  | None =>
      <[normalize_label (def_label def) := (def_destination def, def_title def)]>
        table
  end.

(** Modelled from the spec: the table of a document, built once from its
    definitions taken in document order. *)
Definition collect_definitions (defs : list definition) : ref_table :=
  foldl add_definition ∅ defs.

(** *** HTML renderer (spec, section 4.4) *)

(** The double quote. *)
Definition QUOTE : byte := x22.

(** Modelled from the spec: entity escaping of [&], [<], [>] and the double
    quote in literal text. *)
Definition escape_byte (c : byte) : list byte :=
  if decide (c = "&"%byte) then bytes "&amp;"
  else if decide (c = "<"%byte) then bytes "&lt;"
  else if decide (c = ">"%byte) then bytes "&gt;"
  else if decide (c = QUOTE) then bytes "&quot;"
  else [c].

(** Modelled from the spec: the escaping of a literal, byte by byte. *)
Definition escape_html (s : list byte) : list byte :=
  flat_map escape_byte s.

(** Modelled from the spec: an attribute, [ name="value"], of the tags of
    links and images; the value is escaped. *)
Definition attribute (name : string) (value : list byte) : list byte :=
  bytes " " ++ bytes name ++ bytes "=" ++ [QUOTE] ++ escape_html value ++ [QUOTE].

(** Modelled from the spec: the optional [title] of links and images. *)
Definition optional_title (title : option (list byte)) : list byte :=
  match title with
  | Some t => attribute "title" t
  | None => []
  end.

(** Modelled from the spec: the rendering of an inline node; literal text
    is escaped, raw HTML is emitted as it is. *)
Fixpoint render_inline (i : Inline) : list byte :=
  match i with
  | Text literal => escape_html literal
  | Emphasis children =>
      bytes "<em>" ++ flat_map render_inline children ++ bytes "</em>"
  | Strong children =>
      bytes "<strong>" ++ flat_map render_inline children ++ bytes "</strong>"
  | CodeSpan literal =>
      bytes "<code>" ++ escape_html literal ++ bytes "</code>"
  | Link destination title children =>
      bytes "<a" ++ attribute "href" destination ++ optional_title title
      ++ bytes ">" ++ flat_map render_inline children ++ bytes "</a>"
  | Image destination title alt =>
      bytes "<img" ++ attribute "src" destination ++ attribute "alt" alt
      ++ optional_title title ++ bytes " />"
  | LineBreak hard => if hard then bytes "<br />" ++ [x0a] else [x0a]
  | RawInlineHTML literal => literal
  | Escaped c => escape_html [c]
  end.

(** Modelled from the spec: inline sequences are rendered left to right. *)
Definition render_inlines (content : list Inline) : list byte :=
  flat_map render_inline content.

(** Modelled from the spec: the tag of a heading, [h1] to [h6]. *)
Definition heading_tag (level : nat) : list byte :=
  bytes "h" ++ bytes (NilEmpty.string_of_uint (Nat.to_uint level)).

(** Modelled from the spec: the rendering of a code block: its literal
    text, escaped. *)
Definition render_code_block (literal : list byte) : list byte :=
  bytes "<pre><code>" ++ escape_html literal ++ bytes "</code></pre>".

(** Modelled from the spec: the tree is walked pre-order, one tag pair per
    block kind.  [tight] says that the block is the child of an item of a
    tight list, whose text is not wrapped in a paragraph. *)
Fixpoint render_block (tight : bool) (b : Block (list Inline)) : list byte :=
  match b with
  | Heading level content =>
      bytes "<" ++ heading_tag level ++ bytes ">" ++ render_inlines content
      ++ bytes "</" ++ heading_tag level ++ bytes ">"
  | Paragraph content =>
      if tight then render_inlines content
      else bytes "<p>" ++ render_inlines content ++ bytes "</p>"
  | CodeBlock _ literal _ => render_code_block literal
  | BlockQuote children =>
      bytes "<blockquote>" ++ flat_map (render_block false) children
      ++ bytes "</blockquote>"
  | List ordered start is_tight items =>
      (if ordered
       then bytes "<ol"
            ++ attribute "start"
                 (bytes (NilEmpty.string_of_uint (Nat.to_uint start)))
            ++ bytes ">"
       else bytes "<ul>")
      ++ flat_map (render_block is_tight) items
      ++ (if ordered then bytes "</ol>" else bytes "</ul>")
  | ListItem children =>
      bytes "<li>" ++ flat_map (render_block tight) children ++ bytes "</li>"
  | ThematicBreak => bytes "<hr />"
  | RawHTMLBlock literal => literal
  end.

(** Modelled from the spec: the document, each top-level block followed by
    a newline. *)
Definition render (doc : list (Block (list Inline))) : list byte :=
  flat_map (fun b => render_block false b ++ [x0a]) doc.

(** Modelled from the spec: the inline parser run on the text span of
    every leaf of the tree. *)
Fixpoint resolve (parse : list byte -> list Inline) (b : Block (list byte))
    : Block (list Inline) :=
  match b with
  | Heading level content => Heading level (parse content)
  | Paragraph content => Paragraph (parse content)
  | CodeBlock info literal fenced => CodeBlock info literal fenced
  | BlockQuote children => BlockQuote (map (resolve parse) children)
  | List ordered start tight items =>
      List ordered start tight (map (resolve parse) items)
  | ListItem children => ListItem (map (resolve parse) children)
  | ThematicBreak => ThematicBreak
  | RawHTMLBlock literal => RawHTMLBlock literal
  end.


(** *** The block parser at the end of the input (spec, section 4.2) *)

(** Modelled from the spec: a logical line as the scanner hands it on
    (section 4.1): content without its terminator, leading-whitespace column
    count, and byte offset in the input. *)
Record line := mkLine {
  ln_content : list byte;
  ln_indent : nat;
  ln_offset : nat
}.

(** Modelled from the spec: the containers of the stack (block quote, list,
    list item). *)
Inductive container : Type :=
| OpenBlockQuote
| OpenList (ordered : bool) (start : nat) (loose : bool)
| OpenListItem.

(** Modelled from the spec: an open container with the blocks closed in it
    so far. *)
Record frame := mkFrame {
  fr_container : container;
  fr_children : list (Block (list byte))
}.

(** Modelled from the spec: the leaf block that is being filled, if any.
    A fenced code block remembers the byte offset of its opening line, for
    diagnostics. *)
Inductive open_leaf : Type :=
| NoLeaf
| OpenParagraph (text : list byte)
| OpenFencedCode (info : list byte) (text : list byte) (offset : nat)
| OpenIndentedCode (text : list byte)
| OpenRawHTML (text : list byte).

(** Modelled from the spec: the state of the line-at-a-time machine: the
    closed top-level blocks, the stack of open containers below the
    document (innermost first), the open leaf, and the diagnostics recorded
    so far. *)
Record parser_state := mkState {
  ps_document : list (Block (list byte));
  ps_open : list frame;
  ps_leaf : open_leaf;
  ps_diagnostics : list diagnostic
}.

(** Modelled from the spec: an empty input yields zero lines and an empty
    document: the machine starts with nothing open. *)
Definition initial_state : parser_state := mkState [] [] NoLeaf [].

(** Modelled from the spec: the diagnostic of a fence left open, a
    structural anomaly at the offset of the fence. *)
Definition unclosed_fence (offset : nat) : diagnostic :=
  mkDiagnostic StructuralAnomaly "unclosed fence" offset.

(** Modelled from the spec: closing the open leaf at the document boundary:
    the block it becomes, and the diagnostics this records.  A fence still
    open is closed here and recorded. *)
Definition close_leaf (l : open_leaf)
    : list (Block (list byte)) * list diagnostic :=
  match l with
  | NoLeaf => ([], [])
  | OpenParagraph text => ([Paragraph text], [])
  | OpenFencedCode info text offset =>
      ([CodeBlock info text true], [unclosed_fence offset])
  | OpenIndentedCode text => ([CodeBlock [] text false], [])
  | OpenRawHTML text => ([RawHTMLBlock text], [])
  end.

(** Modelled from the spec: the block an open container becomes when it is
    closed, [last] being the blocks that end it.  A list is tight unless a
    blank line made it loose. *)
Definition close_frame (f : frame) (last : list (Block (list byte)))
    : Block (list byte) :=
  match fr_container f with
  | OpenBlockQuote => BlockQuote (fr_children f ++ last)
  | OpenList ordered start loose =>
      List ordered start (negb loose) (fr_children f ++ last)
  | OpenListItem => ListItem (fr_children f ++ last)
  end.

(** Modelled from the spec: closing the open containers, innermost first;
    [last] are the blocks that end the innermost one. *)
Fixpoint close_containers (open : list frame) (last : list (Block (list byte)))
    (document : list (Block (list byte))) : list (Block (list byte)) :=
  match open with
  | [] => document ++ last
  | f :: outer => close_containers outer [close_frame f last] document
  end.

(** Modelled from the spec: the end of the input closes what is open. *)
Definition finish (s : parser_state)
    : list (Block (list byte)) * list diagnostic :=
  (close_containers (ps_open s) (fst (close_leaf (ps_leaf s))) (ps_document s),
   ps_diagnostics s ++ snd (close_leaf (ps_leaf s))).

(** Modelled from the spec: whether a diagnostic is the one of a fence left
    open: a structural anomaly with that message, at any offset. *)
Definition reports_unclosed_fence (d : diagnostic) : bool :=
  match dg_severity d with
  | StructuralAnomaly => String.eqb (dg_message d) "unclosed fence"
  | UnresolvedReference | EncodingAnomaly => false
  end.

(** Modelled from the spec: notices added to the diagnostics of the
    document, after those recorded before (section 3: one ordered list). *)
Definition record (notices : list diagnostic) (s : parser_state)
    : parser_state :=
  mkState (ps_document s) (ps_open s) (ps_leaf s) (ps_diagnostics s ++ notices).

(** Modelled from the spec: the text spans the inline parser is run on: those
    of the headings and paragraphs of the finished tree, in document order
    (section 4.3). *)
Fixpoint leaf_spans (b : Block (list byte)) : list (list byte) :=
  match b with
  | Heading _ content => [content]
  | Paragraph content => [content]
  | CodeBlock _ _ _ => []
  | BlockQuote children => flat_map leaf_spans children
  | List _ _ _ items => flat_map leaf_spans items
  | ListItem children => flat_map leaf_spans children
  | ThematicBreak => []
  | RawHTMLBlock _ => []
  end.

Section Pipeline.

(** The parts of the pipeline the specification only outlines: the line
    scanner and the encoding anomalies it finds in a line, the pre-pass that
    harvests the link-reference definitions of the document (in document
    order), the effect of one line on the parser's state, and the inline
    parser, which reads the finished reference table and gives the inline
    sequence of a text span with the notices of what it could not resolve. *)
Variable scan : list byte -> list line.
Variable encoding_notices : line -> list diagnostic.
Variable harvest : list line -> list definition.
Variable step : parser_state -> line -> parser_state.
Variable parse_inline : ref_table -> list byte -> list Inline * list diagnostic.

(** Modelled from the spec: the reference table of an input, built once
    from the harvested definitions. *)
Definition reference_table (input : list byte) : ref_table :=
  collect_definitions (harvest (scan input)).

(** Modelled from the spec: one line of the input: the scanner's notices for
    the line are recorded, then the block parser's rules are applied to it
    (section 4.1: the lines are a lazy sequence that feeds the parser). *)
Definition read_line (s : parser_state) (l : line) : parser_state :=
  step (record (encoding_notices l) s) l.

(** Modelled from the spec: the state of the block parser when the lines of
    the input are used up. *)
Definition state_at_end (input : list byte) : parser_state :=
  foldl read_line initial_state (scan input).

(** Modelled from the spec: the notices of the inline parser, which runs on
    every text span of the finished tree once block parsing is over
    (sections 4.3 and 5). *)
Definition inline_notices (table : ref_table)
    (document : list (Block (list byte))) : list diagnostic :=
  flat_map (fun span => snd (parse_inline table span))
    (flat_map leaf_spans document).

(** Modelled from the spec: scanner, block parser, inline parser, renderer
    (section 2); the result is the HTML and the diagnostics of the three
    parsing components in one list (sections 3 and 7): those recorded while
    the lines were read, those of the end of the input, those of the inline
    parser. *)
Definition Convert (input : list byte) : list byte * list diagnostic :=
  let s := state_at_end input in
  let table := reference_table input in
  (render (map (resolve (fun span => fst (parse_inline table span)))
             (fst (finish s))),
   snd (finish s) ++ inline_notices table (fst (finish s))).

End Pipeline.

(** *** An instance of the parameters, for examples

    Lines end at line feeds; a line that holds the byte [xff], which no
    UTF-8 sequence has, is an encoding anomaly; no definition is harvested;
    the only blocks are paragraphs and code blocks fenced by lines that
    start with three backticks; a text span is one literal. *)

Fixpoint leading_columns (column : nat) (content : list byte) : nat :=
  match content with
  | c :: rest =>
      if decide (c = " "%byte) then leading_columns (S column) rest
      else if decide (c = x09)
           then leading_columns (column + 4 - column mod 4) rest
           else column
  | [] => column
  end.

Fixpoint split_lines (offset : nat) (current input : list byte) : list line :=
  match input with
  | [] =>
      match current with
      | [] => []
      | _ :: _ => [mkLine current (leading_columns 0 current) offset]
      end
  | c :: rest =>
      if decide (c = x0a)
      then mkLine current (leading_columns 0 current) offset
           :: split_lines (offset + length current + 1) [] rest
      else split_lines offset (current ++ [c]) rest
  end.

Definition lines_at_line_feeds (input : list byte) : list line :=
  split_lines 0 [] input.

Definition byte_ff_notices (l : line) : list diagnostic :=
  if existsb (fun c => bool_decide (c = xff)) (ln_content l)
  then [mkDiagnostic EncodingAnomaly "invalid byte sequence" (ln_offset l)]
  else [].

Definition no_definitions (lines : list line) : list definition := [].

(** The info string of a line that starts with three backticks. *)
Definition fence_line (content : list byte) : option (list byte) :=
  match content with
  | x60 :: x60 :: x60 :: info => Some info
  | _ => None
  end.

Definition fence_rules (s : parser_state) (l : line) : parser_state :=
  match ps_leaf s, fence_line (ln_content l) with
  | OpenFencedCode info text offset, Some _ =>
      mkState (ps_document s ++ [CodeBlock info text true]) (ps_open s) NoLeaf
              (ps_diagnostics s)
  | OpenFencedCode info text offset, None =>
      mkState (ps_document s) (ps_open s)
              (OpenFencedCode info (text ++ ln_content l ++ [x0a]) offset)
              (ps_diagnostics s)
  | leaf, Some info =>
      mkState (ps_document s ++ fst (close_leaf leaf)) (ps_open s)
              (OpenFencedCode info [] (ln_offset l))
              (ps_diagnostics s)
  | OpenParagraph text, None =>
      match ln_content l with
      | [] =>
          mkState (ps_document s ++ [Paragraph text]) (ps_open s) NoLeaf
                  (ps_diagnostics s)
      | _ :: _ =>
          mkState (ps_document s) (ps_open s)
                  (OpenParagraph (text ++ x0a :: ln_content l))
                  (ps_diagnostics s)
      end
  | leaf, None =>
      match ln_content l with
      | [] =>
          mkState (ps_document s ++ fst (close_leaf leaf)) (ps_open s) NoLeaf
                  (ps_diagnostics s)
      | _ :: _ =>
          mkState (ps_document s ++ fst (close_leaf leaf)) (ps_open s)
                  (OpenParagraph (ln_content l))
                  (ps_diagnostics s)
      end
  end.

Definition literal_only (table : ref_table) (span : list byte)
    : list Inline * list diagnostic :=
  ([Text span], []).

End IMD1.

(** * Properties of the driver *)

(** ** Statements and the C library *)

(** A statement that completes hands its value and world to what follows;
    a [return] and undefined behaviour end the run. *)
Lemma bind_Next {A B} (c : stmt A) (k : A -> stmt B) w a w' :
  c w = Next a w' -> bind c k w = k a w'.
Proof. intros H. unfold bind. now rewrite H. Qed.

Lemma bind_Returned {A B} (c : stmt A) (k : A -> stmt B) w s w' :
  c w = Returned s w' -> bind c k w = Returned s w'.
Proof. intros H. unfold bind. now rewrite H. Qed.

Lemma bind_Undefined {A B} (c : stmt A) (k : A -> stmt B) w w' :
  c w = Undefined w' -> bind c k w = Undefined w'.
Proof. intros H. unfold bind. now rewrite H. Qed.

(** [run H] executes the first statement of the goal's program, [H] being
    the equation of what that statement does in the current world. *)
Tactic Notation "run" uconstr(H) := rewrite (bind_Next _ _ _ _ _ H).

(** A block that holds [bs] and a terminating ['\0'] holds the string
    [c_str bs]. *)
Lemma cells_c_str_terminated (bs : list byte) :
  cells_c_str (Some <$> (bs ++ [NUL])) = Some (c_str bs).
Proof.
  induction bs as [|c bs IH]; cbn -[decide].
  - destruct (decide (NUL = NUL)); [reflexivity | congruence].
  - destruct (decide (c = NUL)); [reflexivity |].
    fold (@fmap list _ _ _ (@Some byte) (bs ++ [NUL])). now rewrite IH.
Qed.

Lemma drop_replicate_tail {A} (n : nat) (x : A) :
  drop n (replicate (S n) x) = [x].
Proof. induction n as [|n IH]; [reflexivity | exact IH]. Qed.

(** Values in range are not changed by the conversions of the driver. *)
Lemma to_size_t_small z : 0 <= z <= SIZE_MAX -> to_size_t z = z.
Proof. intros H. unfold to_size_t. apply Z.mod_small. lia. Qed.

Lemma size_t_mul_char z : 0 <= z <= SIZE_MAX -> size_t_mul sizeof_char z = z.
Proof.
  intros H. unfold size_t_mul, sizeof_char. rewrite Z.mul_1_l.
  apply Z.mod_small. lia.
Qed.

(** [malloc] gives no block larger than [LONG_MAX] bytes. *)
Lemma can_malloc_bound limit n : can_malloc limit n = true -> n <= LONG_MAX.
Proof.
  unfold can_malloc. intros [_ H]%andb_true_iff. apply Z.leb_le in H.
  exact H.
Qed.

(** The messages of the driver hold no ['%']: [fprintf] writes them as they
    are. *)
Lemma fprintf_stderr_message (s : string) w :
  format_noargs (c_str (bytes s)) = Some (bytes s) ->
  fprintf (Some stderr) (Lit s) w
  = Next (Z.of_nat (length (bytes s))) (set_stderr (w_stderr w ++ bytes s) w).
Proof. intros H. unfold fprintf, string_at. now rewrite H. Qed.

Lemma message_no_input :
  format_noargs (c_str (bytes "Could not open input.md"))
  = Some (bytes "Could not open input.md").
Proof. vm_compute. reflexivity. Qed.

Lemma message_no_memory :
  format_noargs (c_str (bytes "Could not allocate memory for buffer"))
  = Some (bytes "Could not allocate memory for buffer").
Proof. vm_compute. reflexivity. Qed.

Lemma message_no_output :
  format_noargs (c_str (bytes "Could not open output.html"))
  = Some (bytes "Could not open output.html").
Proof. vm_compute. reflexivity. Qed.

(** Reading the string at the start of a block that holds one. *)
Lemma load_string_block (s : list byte) (b : nat) (w : world) :
  w_heap w !! b = Some (string_block s true) ->
  load_c_str (Ptr b 0) w = Some (c_str s).
Proof.
  intros H. unfold load_c_str. rewrite H.
  cbn [string_block blk_live blk_cells andb].
  change (0 <=? 0) with true.
  replace (0 <=? Z.of_nat (length (Some <$> (s ++ [NUL])))) with true
    by (symmetry; apply Z.leb_le; lia).
  change (Z.to_nat 0) with 0%nat. cbn [andb drop].
  apply cells_c_str_terminated.
Qed.

Section Runs.

Variable convert : list byte -> list byte * list byte.
Variables (fs : gmap string file) (dir_writable : bool) (limit : Z).

#[local] Abbreviation d := (file_bytes fs "input.md").
#[local] Abbreviation size := (Z.of_nat (length d)).
#[local] Abbreviation html := (fst (convert (c_str d))).
#[local] Abbreviation second := (snd (convert (c_str d))).
#[local] Abbreviation fin := (Some (Stream 0)).
#[local] Abbreviation fout := (Some (Stream 1)).
#[local] Abbreviation buffer := (Ptr 0 0).

(** The worlds the run goes through. *)
#[local] Abbreviation opened pos :=
  (mkWorld fs dir_writable [mkStream "input.md" pos true] [] limit [] []).
#[local] Abbreviation allocated pos cells :=
  (mkWorld fs dir_writable [mkStream "input.md" pos true]
     [mkBlock cells true] limit [] []).
#[local] Abbreviation loaded :=
  (mkWorld fs dir_writable [mkStream "input.md" (length d) false]
     [string_block d true] limit [] []).
#[local] Abbreviation converted :=
  (mkWorld fs dir_writable [mkStream "input.md" (length d) false]
     [string_block d true; string_block html true; string_block second true]
     limit [] [EvConvert buffer [string_block d true]]).

(** *** The statements of [main], one by one *)

Lemma step_fopen_input :
  can_open_existing fs "input.md" = true ->
  fopen "input.md" "r+" (initial_world fs dir_writable limit)
  = Next fin (opened 0%nat).
Proof. intros H. unfold fopen. cbn. now rewrite H. Qed.

Lemma step_fopen_input_fails :
  can_open_existing fs "input.md" = false ->
  fopen "input.md" "r+" (initial_world fs dir_writable limit)
  = Next None (initial_world fs dir_writable limit).
Proof. intros H. unfold fopen. cbn. now rewrite H. Qed.

Lemma step_fseek_end : fseek fin 0 SEEK_END (opened 0%nat) = Next 0 (opened (length d)).
Proof.
  unfold fseek. cbn.
  replace (size + 0 <? 0) with false by (symmetry; apply Z.ltb_ge; lia).
  replace (Z.to_nat (size + 0)) with (length d) by lia.
  reflexivity.
Qed.

Lemma step_ftell : size <= LONG_MAX -> ftell fin (opened (length d)) = Next size (opened (length d)).
Proof.
  intros H. unfold ftell. cbn.
  now replace (size <=? LONG_MAX) with true by (symmetry; apply Z.leb_le; lia).
Qed.

Lemma step_fseek_set : fseek fin 0 SEEK_SET (opened (length d)) = Next 0 (opened 0%nat).
Proof. reflexivity. Qed.

Lemma step_long_add w : size < LONG_MAX -> long_add size 1 w = Next (size + 1) w.
Proof.
  intros H. unfold long_add.
  replace (LONG_MIN <=? size + 1) with true
    by (symmetry; apply Z.leb_le; unfold LONG_MIN; lia).
  now replace (size + 1 <=? LONG_MAX) with true by (symmetry; apply Z.leb_le; lia).
Qed.

Lemma malloc_argument :
  size < LONG_MAX ->
  size_t_mul sizeof_char (to_size_t (size + 1)) = size + 1.
Proof.
  intros H. unfold LONG_MAX in H.
  rewrite to_size_t_small, size_t_mul_char by (unfold SIZE_MAX; lia).
  reflexivity.
Qed.

Lemma step_malloc :
  can_malloc limit (size + 1) = true ->
  malloc (size + 1) (opened 0%nat)
  = Next buffer (allocated 0%nat (replicate (S (length d)) None)).
Proof.
  intros H. unfold malloc. cbn. rewrite H.
  now replace (Z.to_nat (size + 1)) with (S (length d)) by lia.
Qed.

Lemma step_malloc_fails :
  can_malloc limit (size + 1) = false ->
  malloc (size + 1) (opened 0%nat) = Next NULL (opened 0%nat).
Proof. intros H. unfold malloc. cbn. now rewrite H. Qed.

Lemma step_fread :
  size <= SIZE_MAX ->
  fread buffer sizeof_char (to_size_t size) fin
    (allocated 0%nat (replicate (S (length d)) None))
  = Next size (allocated (length d) ((Some <$> d) ++ [None])).
Proof.
  intros H. rewrite to_size_t_small by lia.
  unfold fread, sizeof_char. cbn [get_stream w_streams lookup list_lookup st_open st_pos st_name w_files].
  change (drop 0 d) with d. change (1 =? 0) with false. cbv iota.
  rewrite Z.div_1_r, Z.min_id, Z.mul_1_r, Nat2Z.id, firstn_all.
  unfold store_bytes. cbn [w_heap lookup list_lookup blk_live blk_cells andb].
  rewrite length_replicate.
  replace (0 <=? 0) with true by reflexivity.
  replace (0 + size <=? Z.of_nat (S (length d))) with true
    by (symmetry; apply Z.leb_le; lia).
  change (Z.to_nat 0) with 0%nat. 
  cbn [andb take app Nat.add]. rewrite drop_replicate_tail.
  reflexivity.
Qed.

Lemma step_store_terminator :
  store_char buffer size NUL (allocated (length d) ((Some <$> d) ++ [None]))
  = Next tt (allocated (length d) (Some <$> (d ++ [NUL]))).
Proof.
  unfold store_char, store_bytes.
  cbn [w_heap lookup list_lookup blk_live blk_cells andb length].
  rewrite length_app, length_fmap.
  replace (0 <=? 0 + size) with true by (symmetry; apply Z.leb_le; lia).
  replace (0 + size + Z.of_nat 1 <=? Z.of_nat (length d + length [@None byte]))
    with true by (symmetry; apply Z.leb_le; cbn [length]; lia).
  replace (Z.to_nat (0 + size)) with (length (Some <$> d))
    by (rewrite length_fmap; lia).
  rewrite take_app_length.
  replace (length (Some <$> d) + 1)%nat with (length ((Some <$> d) ++ [None]))
    by (rewrite length_app; reflexivity).
  rewrite drop_all, fmap_app. reflexivity.
Qed.

Lemma step_fclose_input :
  fclose fin (allocated (length d) (Some <$> (d ++ [NUL]))) = Next 0 loaded.
Proof. reflexivity. Qed.

Lemma step_convert :
  C_IMD1_MDToHTML convert buffer loaded
  = Next (mkReturn (Ptr 1 0) (Ptr 2 0)) converted.
Proof.
  unfold C_IMD1_MDToHTML.
  rewrite (load_string_block d) by reflexivity.
  reflexivity.
Qed.

(** The worlds of the second half of the run. *)
#[local] Abbreviation output_opened data pos live :=
  (mkWorld (<["output.html" := mkFile data true true]> fs) dir_writable
     [mkStream "input.md" (length d) false; mkStream "output.html" pos live]
     [string_block d true; string_block html true; string_block second true]
     limit [] [EvConvert buffer [string_block d true]]).
#[local] Abbreviation released out :=
  (mkWorld (<["output.html" := mkFile out true true]> fs) dir_writable
     [mkStream "input.md" (length d) false;
      mkStream "output.html" (length out) false]
     [string_block d true; string_block html false; string_block second false]
     limit []
     [EvConvert buffer [string_block d true]; EvFree (Ptr 1 0); EvFree (Ptr 2 0)]).

Lemma step_fopen_output :
  can_open_existing fs "output.html" || can_create fs dir_writable "output.html"
  = true ->
  fopen "output.html" "w+" converted = Next fout (output_opened [] 0%nat true).
Proof.
  intros H. unfold fopen. change (String.eqb "w+" "r+") with false.
  change (String.eqb "w+" "w+") with true. cbn [w_files w_dir_writable].
  now rewrite H.
Qed.

Lemma step_fopen_output_fails :
  can_open_existing fs "output.html" || can_create fs dir_writable "output.html"
  = false ->
  fopen "output.html" "w+" converted = Next None converted.
Proof.
  intros H. unfold fopen. change (String.eqb "w+" "r+") with false.
  change (String.eqb "w+" "w+") with true. cbn [w_files w_dir_writable].
  now rewrite H.
Qed.

Lemma step_fprintf_html out :
  format_noargs (c_str html) = Some out ->
  fprintf fout (At (Ptr 1 0)) (output_opened [] 0%nat true)
  = Next (Z.of_nat (length out)) (output_opened out (length out) true).
Proof.
  intros H. unfold fprintf, string_at.
  rewrite (load_string_block html) by reflexivity. rewrite H.
  cbn [get_stream w_streams lookup list_lookup st_open].
  unfold write_stream. cbn [st_name st_pos w_files].
  rewrite lookup_insert_eq. cbn [f_data f_readable f_writable length].
  cbn [Nat.sub replicate app take Nat.add].
  rewrite drop_nil, app_nil_r. cbn [w_files]. rewrite insert_insert_eq.
  reflexivity.
Qed.

Lemma step_fprintf_html_undefined :
  format_noargs (c_str html) = None ->
  fprintf fout (At (Ptr 1 0)) (output_opened [] 0%nat true)
  = Undefined (output_opened [] 0%nat true).
Proof.
  intros H. unfold fprintf, string_at.
  rewrite (load_string_block html) by reflexivity. now rewrite H.
Qed.

(** *** The paths through [main] *)

Lemma main_no_input :
  can_open_existing fs "input.md" = false ->
  main convert (initial_world fs dir_writable limit)
  = Returned (-1)
      (mkWorld fs dir_writable [] [] limit (bytes "Could not open input.md") []).
Proof.
  intros H. unfold main.
  run (step_fopen_input_fails H). cbn [is_null].
  run (fprintf_stderr_message _ _ message_no_input).
  reflexivity.
Qed.

Lemma main_no_memory :
  can_open_existing fs "input.md" = true ->
  size < LONG_MAX ->
  can_malloc limit (size + 1) = false ->
  main convert (initial_world fs dir_writable limit)
  = Returned (-1)
      (mkWorld fs dir_writable [mkStream "input.md" 0 true] [] limit
         (bytes "Could not allocate memory for buffer") []).
Proof.
  intros H Hs Hm. unfold main.
  run (step_fopen_input H). cbn [is_null].
  run step_fseek_end.
  run (step_ftell (Z.lt_le_incl _ _ Hs)).
  run step_fseek_set.
  run (step_long_add _ Hs).
  rewrite (malloc_argument Hs).
  run (step_malloc_fails Hm). cbn [ptr_is_null].
  run (fprintf_stderr_message _ _ message_no_memory).
  reflexivity.
Qed.

(** With the file read and the buffer allocated, the run reaches the call
    of the entry point with the file's text in the buffer, and goes on from
    the world [converted]. *)
Lemma main_conversion :
  can_open_existing fs "input.md" = true ->
  can_malloc limit (size + 1) = true ->
  main convert (initial_world fs dir_writable limit)
  = (fout <- fopen "output.html" "w+";;
     if is_null fout then
       (fprintf (Some stderr) (Lit "Could not open output.html");;;
        return_ (-1))
     else
       (fprintf fout (At (Ptr 1 0));;;
        fclose fout;;;
        free (Ptr 1 0);;;
        free (Ptr 2 0);;;
        return_ 0)) converted.
Proof.
  intros H Hm.
  assert (Hs : size < LONG_MAX) by (apply can_malloc_bound in Hm; lia).
  unfold main.
  run (step_fopen_input H). cbn [is_null].
  run step_fseek_end.
  run (step_ftell (Z.lt_le_incl _ _ Hs)).
  run step_fseek_set.
  run (step_long_add _ Hs).
  rewrite (malloc_argument Hs).
  run (step_malloc Hm). cbn [ptr_is_null].
  assert (Hz : size <= SIZE_MAX) by (unfold SIZE_MAX, LONG_MAX in *; lia).
  run (step_fread Hz).
  run step_store_terminator.
  run step_fclose_input.
  run step_convert.
  reflexivity.
Qed.

Lemma main_no_output :
  can_open_existing fs "input.md" = true ->
  can_malloc limit (size + 1) = true ->
  can_open_existing fs "output.html" || can_create fs dir_writable "output.html"
  = false ->
  main convert (initial_world fs dir_writable limit)
  = Returned (-1)
      (mkWorld fs dir_writable [mkStream "input.md" (length d) false]
         [string_block d true; string_block html true; string_block second true]
         limit (bytes "Could not open output.html")
         [EvConvert buffer [string_block d true]]).
Proof.
  intros H Hm Ho. rewrite (main_conversion H Hm).
  run (step_fopen_output_fails Ho). cbn [is_null].
  run (fprintf_stderr_message _ _ message_no_output).
  reflexivity.
Qed.

Lemma main_writes out :
  can_open_existing fs "input.md" = true ->
  can_malloc limit (size + 1) = true ->
  can_open_existing fs "output.html" || can_create fs dir_writable "output.html"
  = true ->
  format_noargs (c_str html) = Some out ->
  main convert (initial_world fs dir_writable limit) = Returned 0 (released out).
Proof.
  intros H Hm Ho Hf. rewrite (main_conversion H Hm).
  run (step_fopen_output Ho). cbn [is_null].
  run (step_fprintf_html _ Hf).
  reflexivity.
Qed.

Lemma main_format_undefined :
  can_open_existing fs "input.md" = true ->
  can_malloc limit (size + 1) = true ->
  can_open_existing fs "output.html" || can_create fs dir_writable "output.html"
  = true ->
  format_noargs (c_str html) = None ->
  main convert (initial_world fs dir_writable limit)
  = Undefined (output_opened [] 0%nat true).
Proof.
  intros H Hm Ho Hf. rewrite (main_conversion H Hm).
  run (step_fopen_output Ho). cbn [is_null].
  rewrite (bind_Undefined _ _ _ _ (step_fprintf_html_undefined Hf)).
  reflexivity.
Qed.

End Runs.

(** ** [fprintf] and the ['%'] byte *)

Lemma format_noargs_plain (s : list byte) :
  PERCENT ∉ s -> format_noargs s = Some s.
Proof.
  induction s as [|c s IH]; intros Hs; [reflexivity |].
  apply not_elem_of_cons in Hs as [Hc Hs]. cbn [format_noargs].
  destruct (decide (c = PERCENT)) as [->|_]; [congruence |].
  now rewrite (IH Hs).
Qed.

(** Whatever a format with no argument writes is no longer than the format,
    and shorter when the format holds a ['%']. *)
Lemma format_noargs_length (n : nat) (s out : list byte) :
  (length s <= n)%nat ->
  format_noargs s = Some out ->
  (length out <= length s)%nat
  /\ (PERCENT ∈ s -> (length out < length s)%nat).
Proof.
  revert s out. induction n as [|n IH]; intros s out Hn Hf.
  - destruct s; [|cbn in Hn; lia]. injection Hf as <-. split; [lia |].
    intros H. inversion H.
  - destruct s as [|c s]; [injection Hf as <-; split; [lia | intros H; inversion H] |].
    cbn [format_noargs] in Hf. cbn [length] in Hn.
    destruct (decide (c = PERCENT)) as [->|Hc].
    + destruct s as [|c' s]; [discriminate |].
      destruct (decide (c' = PERCENT)) as [->|_]; [|discriminate].
      destruct (format_noargs s) as [out'|] eqn:Hs; [|discriminate].
      injection Hf as <-. cbn [length] in *.
      destruct (IH s out' ltac:(lia) Hs) as [Hle _]. split; [lia |]. intros _. lia.
    + destruct (format_noargs s) as [out'|] eqn:Hs; [|discriminate].
      injection Hf as <-. cbn [length].
      destruct (IH s out' ltac:(lia) Hs) as [Hle Hlt]. split; [lia |].
      intros [Heq | Hin]%elem_of_cons; [congruence |]. specialize (Hlt Hin). lia.
Qed.

Lemma format_noargs_percent (s out : list byte) :
  PERCENT ∈ s -> format_noargs s = Some out -> out <> s.
Proof.
  intros Hin Hf ->.
  destruct (format_noargs_length (length s) s s (le_n _) Hf) as [_ Hlt].
  specialize (Hlt Hin). lia.
Qed.

(** ** The argument of the conversion call *)

(** C9.  In every run of the driver in which [input.md] is opened and the
    buffer is allocated, the entry point is called with a pointer to the
    start of a buffer of [size + 1] bytes, [size] being the length of the
    file as [ftell] gave it: the bytes of [input.md] in its first [size]
    places, followed by a ['\0'] at index [size]. *)
Theorem conversion_argument_is_file_text
    (convert : list byte -> list byte * list byte)
    (fs : gmap string file) (dir_writable : bool) (limit : Z) :
  can_open_existing fs "input.md" = true ->
  can_malloc limit (Z.of_nat (length (file_bytes fs "input.md")) + 1) = true ->
  exists mem cells later,
    w_trace (final_world (main convert (initial_world fs dir_writable limit)))
    = EvConvert (Ptr 0 0) mem :: later
    /\ mem !! 0%nat = Some (mkBlock cells true)
    /\ length cells = S (length (file_bytes fs "input.md"))
    /\ take (length (file_bytes fs "input.md")) cells
       = Some <$> file_bytes fs "input.md"
    /\ cells !! length (file_bytes fs "input.md") = Some (Some NUL).
Proof.
  intros Hin Hmem.
  set (d := file_bytes fs "input.md") in *.
  assert (Hcells :
    length (Some <$> (d ++ [NUL])) = S (length d)
    /\ take (length d) (Some <$> (d ++ [NUL])) = Some <$> d
    /\ (Some <$> (d ++ [NUL])) !! length d = Some (Some NUL)).
  { rewrite fmap_app. repeat split.
    - rewrite length_app, length_fmap. cbn. lia.
    - rewrite <- (length_fmap Some d) at 1. apply take_app_length.
    - rewrite <- (length_fmap Some d) at 1. apply list_lookup_middle. reflexivity. }
  destruct Hcells as (Hlen & Htake & Hnul).
  destruct (can_open_existing fs "output.html"
            || can_create fs dir_writable "output.html") eqn:Hout.
  - destruct (format_noargs (c_str (fst (convert (c_str d))))) as [out|] eqn:Hf.
    + rewrite (main_writes convert fs dir_writable limit out Hin Hmem Hout Hf).
      cbn [final_world w_trace]. eexists _, _, _. split; [reflexivity |].
      split; [reflexivity |]. auto.
    + rewrite (main_format_undefined convert fs dir_writable limit Hin Hmem Hout Hf).
      cbn [final_world w_trace]. eexists _, _, _. split; [reflexivity |].
      split; [reflexivity |]. auto.
  - rewrite (main_no_output convert fs dir_writable limit Hin Hmem Hout).
    cbn [final_world w_trace]. eexists _, _, _. split; [reflexivity |].
    split; [reflexivity |]. auto.
Qed.

Lemma conversion_argument_is_file_text_witness :
  can_open_existing (only_input (bytes "# Hello")) "input.md" = true
  /\ can_malloc 64
       (Z.of_nat (length (file_bytes (only_input (bytes "# Hello")) "input.md")) + 1)
     = true
  /\ exists mem cells later,
       w_trace (final_world
         (main paragraph_only
            (initial_world (only_input (bytes "# Hello")) true 64)))
       = EvConvert (Ptr 0 0) mem :: later
       /\ mem !! 0%nat = Some (mkBlock cells true)
       /\ length cells
          = S (length (file_bytes (only_input (bytes "# Hello")) "input.md"))
       /\ take (length (file_bytes (only_input (bytes "# Hello")) "input.md"))
            cells
          = Some <$> file_bytes (only_input (bytes "# Hello")) "input.md"
       /\ cells !! length (file_bytes (only_input (bytes "# Hello")) "input.md")
          = Some (Some NUL).
Proof.
  split; [vm_compute; reflexivity |]. split; [vm_compute; reflexivity |].
  apply (conversion_argument_is_file_text paragraph_only
           (only_input (bytes "# Hello")) true 64);
    vm_compute; reflexivity.
Defined.

(** ** What is written to [output.html] *)

(** C3.  In every run of the driver in which the file is read, the
    conversion call is made and [output.html] is opened, [output.html] ends
    up holding the string at [r.r0] exactly when that string holds no ['%']:
    the driver hands it to [fprintf] as the format.  With a ['%'] in it the
    behaviour is undefined or the file holds other bytes. *)
Theorem output_is_html_iff_no_percent
    (convert : list byte -> list byte * list byte)
    (fs : gmap string file) (dir_writable : bool) (limit : Z) :
  can_open_existing fs "input.md" = true ->
  can_malloc limit (Z.of_nat (length (file_bytes fs "input.md")) + 1) = true ->
  can_open_existing fs "output.html" || can_create fs dir_writable "output.html"
  = true ->
  written_output (main convert (initial_world fs dir_writable limit))
  = Some (c_str (fst (convert (c_str (file_bytes fs "input.md")))))
  <-> PERCENT ∉ c_str (fst (convert (c_str (file_bytes fs "input.md")))).
Proof.
  intros Hin Hmem Hout.
  set (html := c_str (fst (convert (c_str (file_bytes fs "input.md"))))).
  destruct (format_noargs html) as [out|] eqn:Hf.
  - rewrite (main_writes convert fs dir_writable limit out Hin Hmem Hout Hf).
    cbn [written_output w_files]. unfold file_bytes at 1.
    rewrite lookup_insert_eq. cbn [f_data]. split.
    + intros [= ->] Hp. exact (format_noargs_percent html html Hp Hf eq_refl).
    + intros Hp. rewrite (format_noargs_plain html Hp) in Hf. congruence.
  - rewrite (main_format_undefined convert fs dir_writable limit Hin Hmem Hout Hf).
    cbn [written_output]. split; [discriminate |].
    intros Hp. rewrite (format_noargs_plain html Hp) in Hf. discriminate.
Qed.

Lemma output_is_html_iff_no_percent_witness :
  can_open_existing (only_input (bytes "Hello")) "input.md" = true
  /\ can_malloc 64
       (Z.of_nat (length (file_bytes (only_input (bytes "Hello")) "input.md")) + 1)
     = true
  /\ can_open_existing (only_input (bytes "Hello")) "output.html"
     || can_create (only_input (bytes "Hello")) true "output.html" = true
  /\ (written_output
        (main paragraph_only (initial_world (only_input (bytes "Hello")) true 64))
      = Some (c_str (fst (paragraph_only
                (c_str (file_bytes (only_input (bytes "Hello")) "input.md")))))
      <-> PERCENT ∉ c_str (fst (paragraph_only
                (c_str (file_bytes (only_input (bytes "Hello")) "input.md"))))).
Proof.
  split; [vm_compute; reflexivity |]. split; [vm_compute; reflexivity |].
  split; [vm_compute; reflexivity |].
  apply (output_is_html_iff_no_percent paragraph_only
           (only_input (bytes "Hello")) true 64);
    vm_compute; reflexivity.
Defined.

(** Three runs: plain text is written as it is; of a doubled ['%'] one is
    written; a single ['%'] before [<] is no conversion specification. *)
Example main_writes_hello :
  written_output
    (main paragraph_only (initial_world (only_input (bytes "Hello")) true 64))
  = Some (bytes "<p>Hello</p>").
Proof. vm_compute. reflexivity. Qed.

Example main_writes_one_percent_of_two :
  written_output
    (main paragraph_only (initial_world (only_input (bytes "50%%")) true 64))
  = Some (bytes "<p>50%</p>").
Proof. vm_compute. reflexivity. Qed.

Example main_undefined_on_percent :
  written_output
    (main paragraph_only (initial_world (only_input (bytes "100%")) true 64))
  = None.
Proof. vm_compute. reflexivity. Qed.

(** ** The exit status *)

(** The status [main] returns, path by path, for a file shorter than
    [LONG_MAX]: -1 on each of the three failures, 0 when [fprintf] can
    format the HTML string; otherwise the behaviour is undefined. *)
Lemma main_status
    (convert : list byte -> list byte * list byte)
    (fs : gmap string file) (dir_writable : bool) (limit : Z) :
  Z.of_nat (length (file_bytes fs "input.md")) < LONG_MAX ->
  match main convert (initial_world fs dir_writable limit) with
  | Returned status _ =>
      (status = -1
       /\ (can_open_existing fs "input.md" = false
           \/ can_malloc limit
                (Z.of_nat (length (file_bytes fs "input.md")) + 1) = false
           \/ can_open_existing fs "output.html"
              || can_create fs dir_writable "output.html" = false))
      \/ (status = 0
          /\ can_open_existing fs "input.md" = true
          /\ can_malloc limit
               (Z.of_nat (length (file_bytes fs "input.md")) + 1) = true
          /\ can_open_existing fs "output.html"
             || can_create fs dir_writable "output.html" = true
          /\ is_Some (format_noargs
                        (c_str (fst (convert (c_str (file_bytes fs "input.md")))))))
  | Undefined _ =>
      can_open_existing fs "input.md" = true
      /\ can_malloc limit
           (Z.of_nat (length (file_bytes fs "input.md")) + 1) = true
      /\ can_open_existing fs "output.html"
         || can_create fs dir_writable "output.html" = true
      /\ format_noargs (c_str (fst (convert (c_str (file_bytes fs "input.md")))))
         = None
  | Next _ _ => False
  end.
Proof.
  intros Hsize.
  destruct (can_open_existing fs "input.md") eqn:Hin.
  2:{ rewrite (main_no_input convert fs dir_writable limit Hin). left. auto. }
  destruct (can_malloc limit
              (Z.of_nat (length (file_bytes fs "input.md")) + 1)) eqn:Hmem.
  2:{ rewrite (main_no_memory convert fs dir_writable limit Hin Hsize Hmem).
      left. auto. }
  destruct (can_open_existing fs "output.html"
            || can_create fs dir_writable "output.html") eqn:Hout.
  2:{ rewrite (main_no_output convert fs dir_writable limit Hin Hmem Hout).
      left. auto. }
  destruct (format_noargs
              (c_str (fst (convert (c_str (file_bytes fs "input.md"))))))
    as [out|] eqn:Hf.
  - rewrite (main_writes convert fs dir_writable limit out Hin Hmem Hout Hf).
    right. repeat split; eauto.
  - rewrite (main_format_undefined convert fs dir_writable limit Hin Hmem Hout Hf).
    auto.
Qed.

Lemma main_status_witness :
  Z.of_nat (length (file_bytes (only_input (bytes "Hello")) "input.md")) < LONG_MAX
  /\ match main paragraph_only
            (initial_world (only_input (bytes "Hello")) true 64) with
     | Returned status _ =>
         (status = -1
          /\ (can_open_existing (only_input (bytes "Hello")) "input.md" = false
              \/ can_malloc 64
                   (Z.of_nat (length (file_bytes (only_input (bytes "Hello"))
                                        "input.md")) + 1) = false
              \/ can_open_existing (only_input (bytes "Hello")) "output.html"
                 || can_create (only_input (bytes "Hello")) true "output.html"
                 = false))
         \/ (status = 0
             /\ can_open_existing (only_input (bytes "Hello")) "input.md" = true
             /\ can_malloc 64
                  (Z.of_nat (length (file_bytes (only_input (bytes "Hello"))
                                       "input.md")) + 1) = true
             /\ can_open_existing (only_input (bytes "Hello")) "output.html"
                || can_create (only_input (bytes "Hello")) true "output.html"
                = true
             /\ is_Some (format_noargs
                           (c_str (fst (paragraph_only
                              (c_str (file_bytes (only_input (bytes "Hello"))
                                        "input.md")))))))
     | Undefined _ =>
         can_open_existing (only_input (bytes "Hello")) "input.md" = true
         /\ can_malloc 64
              (Z.of_nat (length (file_bytes (only_input (bytes "Hello"))
                                   "input.md")) + 1) = true
         /\ can_open_existing (only_input (bytes "Hello")) "output.html"
            || can_create (only_input (bytes "Hello")) true "output.html" = true
         /\ format_noargs
              (c_str (fst (paragraph_only
                 (c_str (file_bytes (only_input (bytes "Hello")) "input.md")))))
            = None
     | Next _ _ => False
     end.
Proof.
  split; [vm_compute; reflexivity |].
  apply (main_status paragraph_only (only_input (bytes "Hello")) true 64).
  vm_compute. reflexivity.
Defined.

(** The conversion is not called on the two early exits. *)
Lemma main_early_exit_without_conversion
    (convert : list byte -> list byte * list byte)
    (fs : gmap string file) (dir_writable : bool) (limit : Z) :
  Z.of_nat (length (file_bytes fs "input.md")) < LONG_MAX ->
  can_open_existing fs "input.md" = false
  \/ can_malloc limit (Z.of_nat (length (file_bytes fs "input.md")) + 1) = false ->
  exists w,
    main convert (initial_world fs dir_writable limit) = Returned (-1) w
    /\ w_trace w = [].
Proof.
  intros Hsize H.
  destruct (can_open_existing fs "input.md") eqn:Hin.
  - destruct H as [H | Hmem]; [discriminate |].
    rewrite (main_no_memory convert fs dir_writable limit Hin Hsize Hmem). eauto.
  - rewrite (main_no_input convert fs dir_writable limit Hin). eauto.
Qed.

Lemma main_early_exit_without_conversion_witness :
  Z.of_nat (length (file_bytes (only_input (bytes "Hello")) "input.md")) < LONG_MAX
  /\ (can_open_existing (only_input (bytes "Hello")) "input.md" = false
      \/ can_malloc 5
           (Z.of_nat (length (file_bytes (only_input (bytes "Hello")) "input.md"))
            + 1) = false)
  /\ exists w,
       main paragraph_only (initial_world (only_input (bytes "Hello")) true 5)
       = Returned (-1) w
       /\ w_trace w = [].
Proof.
  split; [vm_compute; reflexivity |]. split; [right; vm_compute; reflexivity |].
  apply (main_early_exit_without_conversion paragraph_only
           (only_input (bytes "Hello")) true 5).
  - vm_compute. reflexivity.
  - right. vm_compute. reflexivity.
Defined.

(** C10, at an input where it fails.  [input.md] holds ["%s"], memory
    suffices, [output.html] can be created, and the library wraps the text in
    a paragraph: none of the three failures occurs, yet [main] does not
    return 0: [fprintf] is handed ["<p>%s</p>"] as its format with no
    argument for [%s], and the behaviour of the program is undefined. *)
Theorem exit_status_undefined_at_conversion_specification :
  can_open_existing (only_input (bytes "%s")) "input.md" = true
  /\ can_malloc 4096
       (Z.of_nat (length (file_bytes (only_input (bytes "%s")) "input.md")) + 1)
     = true
  /\ can_open_existing (only_input (bytes "%s")) "output.html"
     || can_create (only_input (bytes "%s")) true "output.html" = true
  /\ exists w,
       main paragraph_only (initial_world (only_input (bytes "%s")) true 4096)
       = Undefined w.
Proof.
  split; [vm_compute; reflexivity |]. split; [vm_compute; reflexivity |].
  split; [vm_compute; reflexivity |].
  eexists. vm_compute. reflexivity.
Qed.

(** ** Release of the returned values *)

(** On the run that reaches the end of [main], each of the two returned
    values is passed to [free] once, after the call; both blocks are
    released when [main] returns. *)
Lemma main_releases_once
    (convert : list byte -> list byte * list byte)
    (fs : gmap string file) (dir_writable : bool) (limit : Z) (out : list byte) :
  can_open_existing fs "input.md" = true ->
  can_malloc limit (Z.of_nat (length (file_bytes fs "input.md")) + 1) = true ->
  can_open_existing fs "output.html" || can_create fs dir_writable "output.html"
  = true ->
  format_noargs (c_str (fst (convert (c_str (file_bytes fs "input.md")))))
  = Some out ->
  exists w mem,
    main convert (initial_world fs dir_writable limit) = Returned 0 w
    /\ w_trace w = [EvConvert (Ptr 0 0) mem; EvFree (Ptr 1 0); EvFree (Ptr 2 0)]
    /\ blk_live <$> w_heap w !! 1%nat = Some false
    /\ blk_live <$> w_heap w !! 2%nat = Some false.
Proof.
  intros Hin Hmem Hout Hf.
  rewrite (main_writes convert fs dir_writable limit out Hin Hmem Hout Hf).
  eexists _, _. repeat split; reflexivity.
Qed.

Lemma main_releases_once_witness :
  can_open_existing (only_input (bytes "Hello")) "input.md" = true
  /\ can_malloc 64
       (Z.of_nat (length (file_bytes (only_input (bytes "Hello")) "input.md")) + 1)
     = true
  /\ can_open_existing (only_input (bytes "Hello")) "output.html"
     || can_create (only_input (bytes "Hello")) true "output.html" = true
  /\ format_noargs
       (c_str (fst (paragraph_only
          (c_str (file_bytes (only_input (bytes "Hello")) "input.md")))))
     = Some (bytes "<p>Hello</p>")
  /\ exists w mem,
       main paragraph_only (initial_world (only_input (bytes "Hello")) true 64)
       = Returned 0 w
       /\ w_trace w
          = [EvConvert (Ptr 0 0) mem; EvFree (Ptr 1 0); EvFree (Ptr 2 0)]
       /\ blk_live <$> w_heap w !! 1%nat = Some false
       /\ blk_live <$> w_heap w !! 2%nat = Some false.
Proof.
  split; [vm_compute; reflexivity |]. split; [vm_compute; reflexivity |].
  split; [vm_compute; reflexivity |]. split; [vm_compute; reflexivity |].
  apply (main_releases_once paragraph_only (only_input (bytes "Hello")) true 64
           (bytes "<p>Hello</p>"));
    vm_compute; reflexivity.
Defined.

(** C1, at an input where it fails.  When [output.html] cannot be opened,
    [main] returns -1 right after the conversion call: the call is the only
    event of the run, no [free] follows it, and the two blocks the entry
    point returned are still allocated when the program ends. *)
Theorem returned_values_not_released_without_output
    (convert : list byte -> list byte * list byte)
    (fs : gmap string file) (dir_writable : bool) (limit : Z) :
  can_open_existing fs "input.md" = true ->
  can_malloc limit (Z.of_nat (length (file_bytes fs "input.md")) + 1) = true ->
  can_open_existing fs "output.html" || can_create fs dir_writable "output.html"
  = false ->
  exists w mem,
    main convert (initial_world fs dir_writable limit) = Returned (-1) w
    /\ w_trace w = [EvConvert (Ptr 0 0) mem]
    /\ blk_live <$> w_heap w !! 1%nat = Some true
    /\ blk_live <$> w_heap w !! 2%nat = Some true.
Proof.
  intros Hin Hmem Hout.
  rewrite (main_no_output convert fs dir_writable limit Hin Hmem Hout).
  eexists _, _. repeat split; reflexivity.
Qed.

Lemma returned_values_not_released_without_output_witness :
  can_open_existing (only_input (bytes "Hello")) "input.md" = true
  /\ can_malloc 64
       (Z.of_nat (length (file_bytes (only_input (bytes "Hello")) "input.md")) + 1)
     = true
  /\ can_open_existing (only_input (bytes "Hello")) "output.html"
     || can_create (only_input (bytes "Hello")) false "output.html" = false
  /\ exists w mem,
       main paragraph_only (initial_world (only_input (bytes "Hello")) false 64)
       = Returned (-1) w
       /\ w_trace w = [EvConvert (Ptr 0 0) mem]
       /\ blk_live <$> w_heap w !! 1%nat = Some true
       /\ blk_live <$> w_heap w !! 2%nat = Some true.
Proof.
  split; [vm_compute; reflexivity |]. split; [vm_compute; reflexivity |].
  split; [vm_compute; reflexivity |].
  apply (returned_values_not_released_without_output paragraph_only
           (only_input (bytes "Hello")) false 64);
    vm_compute; reflexivity.
Defined.

(** ** Further properties of [main]

    Each of them is read off the five paths through [main]: the three
    failures, the run to the end, and the call of [fprintf] that is
    undefined. *)

(** [main_paths] splits a goal about a run of [main] along these paths and
    replaces the run by its outcome. *)
Ltac main_paths convert fs dir_writable limit Hsize :=
  let Hin := fresh "Hin" in
  let Hmem := fresh "Hmem" in
  let Hout := fresh "Hout" in
  let Hf := fresh "Hf" in
  let out := fresh "out" in
  destruct (can_open_existing fs "input.md") eqn:Hin;
  [ destruct (can_malloc limit
                (Z.of_nat (length (file_bytes fs "input.md")) + 1)) eqn:Hmem;
    [ destruct (can_open_existing fs "output.html"
                || can_create fs dir_writable "output.html") eqn:Hout;
      [ destruct (format_noargs
                    (c_str (fst (convert (c_str (file_bytes fs "input.md"))))))
          as [out|] eqn:Hf;
        [ rewrite (main_writes convert fs dir_writable limit out
                     Hin Hmem Hout Hf)
        | rewrite (main_format_undefined convert fs dir_writable limit
                     Hin Hmem Hout Hf) ]
      | rewrite (main_no_output convert fs dir_writable limit Hin Hmem Hout) ]
    | rewrite (main_no_memory convert fs dir_writable limit Hin Hsize Hmem) ]
  | rewrite (main_no_input convert fs dir_writable limit Hin) ].

(** *** What is reported on [stderr] *)



(** *** What happens to the files *)



(** A run that ends in one of the three failures leaves the directory as it
    was: an [output.html] of an earlier run keeps its content. *)
Theorem main_failure_leaves_directory
    (convert : list byte -> list byte * list byte)
    (fs : gmap string file) (dir_writable : bool) (limit : Z) :
  Z.of_nat (length (file_bytes fs "input.md")) < LONG_MAX ->
  can_open_existing fs "input.md" = false
  \/ can_malloc limit (Z.of_nat (length (file_bytes fs "input.md")) + 1) = false
  \/ can_open_existing fs "output.html" || can_create fs dir_writable "output.html"
     = false ->
  w_files (final_world (main convert (initial_world fs dir_writable limit)))
  = fs.
Proof.
  intros Hsize Hfail.
  main_paths convert fs dir_writable limit Hsize; cbn [final_world w_files];
    try reflexivity;
    destruct Hfail as [? | [? | ?]]; discriminate.
Qed.

Lemma main_failure_leaves_directory_witness :
  Z.of_nat (length (file_bytes (only_input (bytes "Hello")) "input.md")) < LONG_MAX
  /\ (can_open_existing (only_input (bytes "Hello")) "input.md" = false
      \/ can_malloc 5
           (Z.of_nat (length (file_bytes (only_input (bytes "Hello")) "input.md"))
            + 1) = false
      \/ can_open_existing (only_input (bytes "Hello")) "output.html"
         || can_create (only_input (bytes "Hello")) true "output.html" = false)
  /\ w_files (final_world
       (main paragraph_only (initial_world (only_input (bytes "Hello")) true 5)))
     = only_input (bytes "Hello").
Proof.
  split; [vm_compute; reflexivity |].
  split; [right; left; vm_compute; reflexivity |].
  apply (main_failure_leaves_directory paragraph_only
           (only_input (bytes "Hello")) true 5).
  - vm_compute. reflexivity.
  - right. left. vm_compute. reflexivity.
Defined.

(** Once [output.html] is opened, its content at the end of the run is known
    exactly when [fprintf] can format the HTML string with no argument: the
    file then holds the formatted text and nothing of what it held before,
    and that text is never longer than the HTML string.  When [fprintf]
    cannot, the call is undefined and no content is known
    ([written_output] is [None]): something may be written all the same. *)
Theorem main_output_is_formatted_html
    (convert : list byte -> list byte * list byte)
    (fs : gmap string file) (dir_writable : bool) (limit : Z) :
  can_open_existing fs "input.md" = true ->
  can_malloc limit (Z.of_nat (length (file_bytes fs "input.md")) + 1) = true ->
  can_open_existing fs "output.html" || can_create fs dir_writable "output.html"
  = true ->
  written_output (main convert (initial_world fs dir_writable limit))
  = format_noargs (c_str (fst (convert (c_str (file_bytes fs "input.md")))))
  /\ forall out,
       written_output (main convert (initial_world fs dir_writable limit))
       = Some out ->
       (length out
        <= length (c_str (fst (convert (c_str (file_bytes fs "input.md"))))))%nat.
Proof.
  intros Hin Hmem Hout.
  assert (Hw :
    written_output (main convert (initial_world fs dir_writable limit))
    = format_noargs (c_str (fst (convert (c_str (file_bytes fs "input.md")))))).
  { destruct (format_noargs
                (c_str (fst (convert (c_str (file_bytes fs "input.md"))))))
      as [out|] eqn:Hf.
    - rewrite (main_writes convert fs dir_writable limit out Hin Hmem Hout Hf).
      cbn [written_output w_files]. unfold file_bytes at 1.
      now rewrite lookup_insert_eq.
    - now rewrite (main_format_undefined convert fs dir_writable limit
                     Hin Hmem Hout Hf). }
  split; [exact Hw |].
  intros out Ho. rewrite Hw in Ho.
  exact (proj1 (format_noargs_length _ _ _ (le_n _) Ho)).
Qed.

Lemma main_output_is_formatted_html_witness :
  can_open_existing
    (<["output.html"%string := mkFile (bytes "an older and longer output") true true]>
       (only_input (bytes "50%%"))) "input.md" = true
  /\ can_malloc 64
       (Z.of_nat (length (file_bytes
          (<["output.html"%string := mkFile (bytes "an older and longer output") true true]>
             (only_input (bytes "50%%"))) "input.md")) + 1) = true
  /\ can_open_existing
       (<["output.html"%string := mkFile (bytes "an older and longer output") true true]>
          (only_input (bytes "50%%"))) "output.html"
     || can_create
          (<["output.html"%string := mkFile (bytes "an older and longer output") true true]>
             (only_input (bytes "50%%"))) false "output.html" = true
  /\ (written_output
        (main paragraph_only
           (initial_world
              (<["output.html"%string := mkFile (bytes "an older and longer output") true true]>
                 (only_input (bytes "50%%"))) false 64))
      = format_noargs
          (c_str (fst (paragraph_only (c_str (file_bytes
             (<["output.html"%string := mkFile (bytes "an older and longer output") true true]>
                (only_input (bytes "50%%"))) "input.md")))))
      /\ forall out,
           written_output
             (main paragraph_only
                (initial_world
                   (<["output.html"%string := mkFile (bytes "an older and longer output") true true]>
                      (only_input (bytes "50%%"))) false 64))
           = Some out ->
           (length out
            <= length (c_str (fst (paragraph_only (c_str (file_bytes
                 (<["output.html"%string := mkFile (bytes "an older and longer output") true true]>
                    (only_input (bytes "50%%"))) "input.md"))))))%nat).
Proof.
  split; [vm_compute; reflexivity |]. split; [vm_compute; reflexivity |].
  split; [vm_compute; reflexivity |].
  apply (main_output_is_formatted_html paragraph_only
           (<["output.html"%string := mkFile (bytes "an older and longer output") true true]>
              (only_input (bytes "50%%"))) false 64);
    vm_compute; reflexivity.
Defined.

(** *** What happens to the streams and to the memory *)

(** [after_read_paths] splits a goal about a run that read [input.md] along
    the three paths that remain. *)
Ltac after_read_paths convert fs dir_writable limit Hin Hmem :=
  let Hout := fresh "Hout" in
  let Hf := fresh "Hf" in
  let out := fresh "out" in
  destruct (can_open_existing fs "output.html"
            || can_create fs dir_writable "output.html") eqn:Hout;
  [ destruct (format_noargs
                (c_str (fst (convert (c_str (file_bytes fs "input.md"))))))
      as [out|] eqn:Hf;
    [ rewrite (main_writes convert fs dir_writable limit out Hin Hmem Hout Hf)
    | rewrite (main_format_undefined convert fs dir_writable limit
                 Hin Hmem Hout Hf) ]
  | rewrite (main_no_output convert fs dir_writable limit Hin Hmem Hout) ].

(** The stream on [input.md] is closed at the end of a run exactly when the
    buffer could be allocated: the exit after a failed [malloc] leaves it
    open. *)
Theorem main_input_stream_at_exit
    (convert : list byte -> list byte * list byte)
    (fs : gmap string file) (dir_writable : bool) (limit : Z) :
  can_open_existing fs "input.md" = true ->
  Z.of_nat (length (file_bytes fs "input.md")) < LONG_MAX ->
  st_open
    <$> w_streams (final_world (main convert (initial_world fs dir_writable limit)))
        !! 0%nat
  = Some (negb (can_malloc limit
                  (Z.of_nat (length (file_bytes fs "input.md")) + 1))).
Proof.
  intros Hin Hsize.
  destruct (can_malloc limit (Z.of_nat (length (file_bytes fs "input.md")) + 1))
    eqn:Hmem.
  - after_read_paths convert fs dir_writable limit Hin Hmem; reflexivity.
  - rewrite (main_no_memory convert fs dir_writable limit Hin Hsize Hmem).
    reflexivity.
Qed.

Lemma main_input_stream_at_exit_witness :
  can_open_existing (only_input (bytes "Hello")) "input.md" = true
  /\ Z.of_nat (length (file_bytes (only_input (bytes "Hello")) "input.md")) < LONG_MAX
  /\ st_open
       <$> w_streams (final_world
             (main paragraph_only
                (initial_world (only_input (bytes "Hello")) true 5)))
           !! 0%nat
     = Some (negb (can_malloc 5
                     (Z.of_nat (length (file_bytes (only_input (bytes "Hello"))
                                          "input.md")) + 1))).
Proof.
  split; [vm_compute; reflexivity |]. split; [vm_compute; reflexivity |].
  apply (main_input_stream_at_exit paragraph_only
           (only_input (bytes "Hello")) true 5);
    vm_compute; reflexivity.
Defined.

(** A run that returns 0 has closed both of its streams. *)
Theorem main_success_closes_streams
    (convert : list byte -> list byte * list byte)
    (fs : gmap string file) (dir_writable : bool) (limit : Z) :
  Z.of_nat (length (file_bytes fs "input.md")) < LONG_MAX ->
  exit_status (main convert (initial_world fs dir_writable limit)) = Some 0 ->
  length (w_streams
            (final_world (main convert (initial_world fs dir_writable limit))))
  = 2%nat
  /\ Forall (fun s => st_open s = false)
       (w_streams
          (final_world (main convert (initial_world fs dir_writable limit)))).
Proof.
  intros Hsize.
  main_paths convert fs dir_writable limit Hsize;
    cbn [exit_status final_world w_streams]; try discriminate.
  intros _. split; [reflexivity |]. repeat constructor.
Qed.

Lemma main_success_closes_streams_witness :
  Z.of_nat (length (file_bytes (only_input (bytes "Hello")) "input.md")) < LONG_MAX
  /\ exit_status
       (main paragraph_only (initial_world (only_input (bytes "Hello")) true 64))
     = Some 0
  /\ (length (w_streams (final_world
         (main paragraph_only (initial_world (only_input (bytes "Hello")) true 64))))
       = 2%nat
      /\ Forall (fun s => st_open s = false)
           (w_streams (final_world
              (main paragraph_only
                 (initial_world (only_input (bytes "Hello")) true 64))))).
Proof.
  split; [vm_compute; reflexivity |]. split; [vm_compute; reflexivity |].
  apply (main_success_closes_streams paragraph_only
           (only_input (bytes "Hello")) true 64);
    vm_compute; reflexivity.
Defined.



(** Memory is released only on the run that returns 0: a run that ends in any
    other way has called [free] on nothing. *)
Theorem main_frees_only_at_success
    (convert : list byte -> list byte * list byte)
    (fs : gmap string file) (dir_writable : bool) (limit : Z) (p : ptr) :
  Z.of_nat (length (file_bytes fs "input.md")) < LONG_MAX ->
  EvFree p
  ∈ w_trace (final_world (main convert (initial_world fs dir_writable limit))) ->
  exit_status (main convert (initial_world fs dir_writable limit)) = Some 0.
Proof.
  intros Hsize.
  main_paths convert fs dir_writable limit Hsize;
    cbn [final_world w_trace exit_status]; try reflexivity;
    rewrite ?elem_of_cons, elem_of_nil; intros H;
    repeat (destruct H as [H | H]; [discriminate H |]); destruct H.
Qed.

Lemma main_frees_only_at_success_witness :
  Z.of_nat (length (file_bytes (only_input (bytes "Hello")) "input.md")) < LONG_MAX
  /\ EvFree (Ptr 1 0)
     ∈ w_trace (final_world
         (main paragraph_only (initial_world (only_input (bytes "Hello")) true 64)))
  /\ exit_status
       (main paragraph_only (initial_world (only_input (bytes "Hello")) true 64))
     = Some 0.
Proof.
  assert (Hfree :
    EvFree (Ptr 1 0)
    ∈ w_trace (final_world
        (main paragraph_only (initial_world (only_input (bytes "Hello")) true 64))))
    by (vm_compute; repeat constructor).
  split; [vm_compute; reflexivity |]. split; [exact Hfree |].
  apply (main_frees_only_at_success paragraph_only
           (only_input (bytes "Hello")) true 64 (Ptr 1 0));
    [vm_compute; reflexivity | exact Hfree].
Defined.

(** *** What the entry point is given, and what is done with its results *)

Lemma c_str_no_nul (bs : list byte) : c_str bs = bs <-> NUL ∉ bs.
Proof.
  induction bs as [|c rest IH]; cbn [c_str].
  - split; [intros _; apply not_elem_of_nil | reflexivity].
  - rewrite not_elem_of_cons. destruct (decide (c = NUL)) as [-> | Hc].
    + split; [discriminate | intros [H _]; now destruct H].
    + split.
      * intros H. injection H as H. split; [congruence | now apply IH].
      * intros [_ H]. f_equal. now apply IH.
Qed.

Lemma c_str_prefix (bs : list byte) : c_str bs `prefix_of` bs.
Proof.
  induction bs as [|c rest IH]; cbn [c_str].
  - reflexivity.
  - destruct (decide (c = NUL)); [apply prefix_nil | now apply prefix_cons].
Qed.

Lemma c_str_has_no_nul (bs : list byte) : NUL ∉ c_str bs.
Proof.
  induction bs as [|c rest IH]; cbn [c_str].
  - apply not_elem_of_nil.
  - destruct (decide (c = NUL)) as [-> | Hc]; [apply not_elem_of_nil |].
    rewrite not_elem_of_cons. split; [congruence | exact IH].
Qed.

(** [c_str] stops at a NUL byte or at the end. *)
Lemma c_str_stops (bs : list byte) :
  c_str bs = bs \/ bs !! length (c_str bs) = Some NUL.
Proof.
  induction bs as [|c rest IH]; cbn [c_str].
  - now left.
  - destruct (decide (c = NUL)) as [-> | Hc]; [now right |].
    destruct IH as [IH | IH]; [left; now rewrite IH | right; exact IH].
Qed.

(** The entry point is given a pointer and no length: the string it finds at
    [buffer] is the text of [input.md] up to its first NUL byte.  It is
    [c_str] of the text: a prefix of the text that holds no NUL byte and is
    followed in the text by a NUL byte unless it is the whole text, and it is
    the whole text exactly when the file holds no NUL byte. *)
Theorem conversion_string_stops_at_nul
    (convert : list byte -> list byte * list byte)
    (fs : gmap string file) (dir_writable : bool) (limit : Z) :
  can_open_existing fs "input.md" = true ->
  can_malloc limit (Z.of_nat (length (file_bytes fs "input.md")) + 1) = true ->
  exists mem later text,
    w_trace (final_world (main convert (initial_world fs dir_writable limit)))
    = EvConvert (Ptr 0 0) mem :: later
    /\ load_c_str (Ptr 0 0) (set_heap mem (initial_world fs dir_writable limit))
       = Some text
    /\ text = c_str (file_bytes fs "input.md")
    /\ text `prefix_of` file_bytes fs "input.md"
    /\ (NUL ∉ text)
    /\ (text = file_bytes fs "input.md"
        \/ file_bytes fs "input.md" !! length text = Some NUL)
    /\ (text = file_bytes fs "input.md" <-> NUL ∉ file_bytes fs "input.md").
Proof.
  intros Hin Hmem.
  exists [string_block (file_bytes fs "input.md") true].
  after_read_paths convert fs dir_writable limit Hin Hmem;
    cbn [final_world w_trace]; eexists _, (c_str (file_bytes fs "input.md"));
    (split; [reflexivity |]);
    (split; [now apply load_string_block |]);
    (split; [reflexivity |]);
    (split; [apply c_str_prefix |]);
    (split; [apply c_str_has_no_nul |]);
    (split; [apply c_str_stops | apply c_str_no_nul]).
Qed.

Lemma conversion_string_stops_at_nul_witness :
  can_open_existing (only_input (bytes "a" ++ NUL :: bytes "b")) "input.md" = true
  /\ can_malloc 64
       (Z.of_nat (length (file_bytes (only_input (bytes "a" ++ NUL :: bytes "b"))
                            "input.md")) + 1)
     = true
  /\ exists mem later text,
       w_trace (final_world
         (main paragraph_only
            (initial_world (only_input (bytes "a" ++ NUL :: bytes "b")) true 64)))
       = EvConvert (Ptr 0 0) mem :: later
       /\ load_c_str (Ptr 0 0)
            (set_heap mem
               (initial_world (only_input (bytes "a" ++ NUL :: bytes "b")) true 64))
          = Some text
       /\ text = c_str (file_bytes (only_input (bytes "a" ++ NUL :: bytes "b"))
                          "input.md")
       /\ text `prefix_of` file_bytes (only_input (bytes "a" ++ NUL :: bytes "b"))
                             "input.md"
       /\ (NUL ∉ text)
       /\ (text = file_bytes (only_input (bytes "a" ++ NUL :: bytes "b")) "input.md"
           \/ file_bytes (only_input (bytes "a" ++ NUL :: bytes "b")) "input.md"
                !! length text = Some NUL)
       /\ (text = file_bytes (only_input (bytes "a" ++ NUL :: bytes "b")) "input.md"
           <-> NUL ∉ file_bytes (only_input (bytes "a" ++ NUL :: bytes "b"))
                       "input.md").
Proof.
  split; [vm_compute; reflexivity |]. split; [vm_compute; reflexivity |].
  apply (conversion_string_stops_at_nul paragraph_only
           (only_input (bytes "a" ++ NUL :: bytes "b")) true 64);
    vm_compute; reflexivity.
Defined.

(** A file with a NUL byte in it: the text after that byte is not in the
    output. *)
Example main_drops_text_after_nul :
  written_output
    (main paragraph_only
       (initial_world (only_input (bytes "a" ++ NUL :: bytes "b")) true 64))
  = Some (bytes "<p>a</p>").
Proof. vm_compute. reflexivity. Qed.



(** * Properties of the conversion core, as the specification words it *)

Import IMD1.

(** ** Reference table *)

(** A key already in the table keeps its entry whatever is added. *)
Lemma add_definition_keeps
    (table : ref_table)
    (def : definition) (key : list byte) (entry : list byte * option (list byte)) :
  table !! key = Some entry -> add_definition table def !! key = Some entry.
Proof.
  intros H. unfold add_definition.
  destruct (table !! normalize_label (def_label def)) eqn:Hd; [exact H |].
  rewrite lookup_insert_ne; [exact H | congruence].
Qed.

Lemma add_definition_new
    (table : ref_table)
    (def : definition) :
  table !! normalize_label (def_label def) = None ->
  add_definition table def !! normalize_label (def_label def)
  = Some (def_destination def, def_title def).
Proof.
  intros H. unfold add_definition. rewrite H. apply lookup_insert_eq.
Qed.

Lemma collect_keeps (defs : list definition)
    (table : ref_table)
    (key : list byte) (entry : list byte * option (list byte)) :
  table !! key = Some entry -> foldl add_definition table defs !! key = Some entry.
Proof.
  revert table. induction defs as [|def defs IH]; intros table H; [exact H |].
  cbn [foldl]. apply IH. now apply add_definition_keeps.
Qed.

(** The entry of a key after the definitions [defs] have been added to
    [table]: the one the table had, else that of the first of [defs] with
    this key. *)
Lemma collect_lookup (defs : list definition)
    (table : ref_table)
    (key : list byte) :
  foldl add_definition table defs !! key
  = match table !! key with
    | Some entry => Some entry
    | None =>
        (fun def => (def_destination def, def_title def))
          <$> find (fun def => bool_decide (normalize_label (def_label def) = key))
                defs
    end.
Proof.
  revert table. induction defs as [|def defs IH]; intros table.
  - cbn. now destruct (table !! key).
  - cbn [foldl find]. rewrite IH. unfold add_definition.
    destruct (decide (normalize_label (def_label def) = key)) as [Heq | Hne].
    + rewrite (bool_decide_eq_true_2 _ Heq). rewrite Heq.
      destruct (table !! key) as [entry|] eqn:Ht.
      * now rewrite Ht.
      * now rewrite lookup_insert_eq.
    + rewrite (bool_decide_eq_false_2 _ Hne).
      destruct (table !! normalize_label (def_label def)); [reflexivity |].
      now rewrite lookup_insert_ne.
Qed.

(** C7.  For every input, the reference table maps every key to the
    destination and title of the first of the input's link-reference
    definitions, in document order, whose label normalizes (case-fold,
    whitespace-collapse) to that key; definitions that follow with the same
    key change nothing.  This holds whatever the scanner is and however
    definitions are recognised. *)
Theorem first_definition_wins
    (scan : list byte -> list line) (harvest : list line -> list definition)
    (input key : list byte) :
  reference_table scan harvest input !! key
  = (fun def => (def_destination def, def_title def))
      <$> find (fun def => bool_decide (normalize_label (def_label def) = key))
            (harvest (scan input)).
Proof.
  unfold reference_table, collect_definitions. rewrite collect_lookup.
  now rewrite lookup_empty.
Qed.

(** The same for two definitions of one key in a document: the entry is the
    first one's, wherever the second stands. *)
Lemma duplicate_definition_ignored
    (before between after : list definition) (first second : definition) :
  (forall def, In def before ->
     normalize_label (def_label def) <> normalize_label (def_label first)) ->
  normalize_label (def_label second) = normalize_label (def_label first) ->
  collect_definitions (before ++ first :: between ++ second :: after)
    !! normalize_label (def_label first)
  = Some (def_destination first, def_title first).
Proof.
  intros Hbefore _. unfold collect_definitions.
  rewrite foldl_app. cbn [foldl]. apply collect_keeps.
  apply add_definition_new.
  rewrite collect_lookup, lookup_empty.
  destruct (find _ before) as [def|] eqn:Hfind; [|reflexivity].
  apply find_some in Hfind as [Hin Hkey].
  apply bool_decide_eq_true_1 in Hkey. now apply Hbefore in Hin.
Qed.

Example duplicate_definition_example :
  collect_definitions
    [mkDefinition (bytes "1") (bytes "http://example.com") (Some (bytes "t"));
     mkDefinition (bytes "Foo  Bar") (bytes "/first") None;
     mkDefinition (bytes "foo bar") (bytes "/second") (Some (bytes "later"))]
    !! bytes "foo bar"
  = Some (bytes "/first", None).
Proof. vm_compute. reflexivity. Qed.

(** ** The renderer *)






(** ** The end of the input *)



(** When no fence is open at the end of the input, closing the open leaf
    records nothing. *)
Lemma finish_without_open_fence (s : parser_state) :
  (forall info text offset, ps_leaf s <> OpenFencedCode info text offset) ->
  snd (finish s) = ps_diagnostics s.
Proof.
  intros H. unfold finish. cbn [snd].
  destruct (ps_leaf s) as [ | | info text offset | | ]; cbn [close_leaf snd];
    try apply app_nil_r.
  now destruct (H info text offset).
Qed.

(** ** The diagnostics of an unclosed fence *)

Lemma reports_unclosed_fence_spec (d : diagnostic) :
  reports_unclosed_fence d = true <-> d = unclosed_fence (dg_offset d).
Proof.
  destruct d as [severity message offset].
  unfold reports_unclosed_fence, unclosed_fence. cbn [dg_severity dg_message dg_offset].
  split.
  - destruct severity; try discriminate.
    intros H. apply String.eqb_eq in H. now subst.
  - intros H. injection H as -> ->. reflexivity.
Qed.









(** The same input run through the instance: a line with an invalid byte, a
    blank line, and a fence that is opened and never closed. *)
Example unterminated_fence_example :
  Convert lines_at_line_feeds byte_ff_notices no_definitions fence_rules
    literal_only
    (xff :: x0a :: x0a :: bytes "```c" ++ x0a :: bytes "a<b" ++ [x0a])
  = (bytes "<p>" ++ [xff] ++ bytes "</p>" ++ [x0a]
     ++ bytes "<pre><code>a&lt;b" ++ [x0a] ++ bytes "</code></pre>" ++ [x0a],
     [mkDiagnostic EncodingAnomaly "invalid byte sequence" 0;
      unclosed_fence 3]).
Proof. vm_compute. reflexivity. Qed.

(** A fence that is closed before the end of the input is not reported. *)
Example terminated_fence_example :
  Convert lines_at_line_feeds byte_ff_notices no_definitions fence_rules
    literal_only
    (bytes "```" ++ x0a :: bytes "a<b" ++ x0a :: bytes "```" ++ [x0a])
  = (bytes "<pre><code>a&lt;b" ++ [x0a] ++ bytes "</code></pre>" ++ [x0a], []).
Proof. vm_compute. reflexivity. Qed.
